(** * SEO audit API: status aggregation and task-name resolution

    A shallow embedding of [src/python/api/utils.py]: the error mapper
    [to_sdk_error_response], the cached name resolution [get_task_name],
    the child-run listing [fetch_spawned_tasks] and the status aggregation
    [fetch_task_status].

    Python strings are [string]; a value that may be [None] (a missing
    key read with [dict.get]) is an [option]; the fields of the
    platform's records are strings when present. The process-wide
    cache, the clock, the environment and the log of remote calls form
    an explicit world threaded through a state-and-exception monad, in
    which [try ... except Exception] is a combinator. The remote
    platform is a record of oracles: what each call answers at a clock
    reading and how long it takes. The clock moves only while a remote
    call is awaited. The order in which Python iterates a [set] is left
    open: it is a field of the platform, and the statements that depend
    on it hold for every order. One aggregation is followed on its own;
    interleaved requests are outside the model. *)

From Stdlib Require Import List String Ascii Bool Arith NArith Lia DecimalString.
Import ListNotations.
Local Open Scope string_scope.

(** ** Python strings *)

Module PyStr.

(** [bool(s)]: a string is truthy when it is not empty. *)
Definition truthy (s : string) : bool :=
  match s with
  | EmptyString => false
  | String _ _ => true
  end.

(** [c in s] for a one-character needle. *)
Fixpoint contains_char (c : ascii) (s : string) : bool :=
  match s with
  | EmptyString => false
  | String a rest => Ascii.eqb a c || contains_char c rest
  end.

(** [s.split(c)] for a one-character separator: never empty, and a
    trailing separator yields a trailing empty segment. *)
Fixpoint split (c : ascii) (s : string) : list string :=
  match s with
  | EmptyString => [EmptyString]
  | String a rest =>
      if Ascii.eqb a c then EmptyString :: split c rest
      else match split c rest with
           | [] => [String a EmptyString]
           | seg :: segs => String a seg :: segs
           end
  end.

(** [l[-1]] on the result of a split. *)
Definition last_segment (c : ascii) (s : string) : string :=
  last (split c s) EmptyString.

(** [x or y] where [x] is a string or [None]. *)
Definition or_else (x : option string) (y : string) : string :=
  match x with
  | Some s => if truthy s then s else y
  | None => y
  end.

(** [bool(x)] where [x] is a string or [None]. *)
Definition truthy_opt (x : option string) : bool :=
  match x with
  | Some s => truthy s
  | None => false
  end.

Definition slash : ascii := "/"%char.

End PyStr.

(** ** Exceptions

    The classes the module tells apart.  [ClientError] derives from
    [RenderError] in the SDK; every class derives from [Exception]. *)

Inductive exn_class : Type :=
| ClientError
| RenderError
| HTTPStatusError
| TransportError
| TimeoutException
| JSONDecodeError
| KeyError
| OtherException.

Record exn : Type := mkExn { exn_cls : exn_class; exn_str : string }.

Definition exn_class_eqb (a b : exn_class) : bool :=
  match a, b with
  | ClientError, ClientError
  | RenderError, RenderError
  | HTTPStatusError, HTTPStatusError
  | TransportError, TransportError
  | TimeoutException, TimeoutException
  | JSONDecodeError, JSONDecodeError
  | KeyError, KeyError
  | OtherException, OtherException => true
  | _, _ => false
  end.

(** [isinstance(error, cls)]: the class itself or a subclass of it. *)
Definition isinstance (e : exn) (cls : exn_class) : bool :=
  exn_class_eqb (exn_cls e) cls
  || (exn_class_eqb cls RenderError && exn_class_eqb (exn_cls e) ClientError).

(** ** The error mapper *)

Definition to_sdk_error_response (error : exn) : N * string :=
  if isinstance error ClientError then
    (400%N, "Client error: " ++ exn_str error)
  else if isinstance error RenderError then
    (500%N, "Render API error: " ++ exn_str error)
  else
    (500%N, exn_str error).

(** The three outcome kinds of the specification, read off the class of
    the exception. *)
Inductive error_kind : Type :=
| ClientInputError
| RemoteServiceError
| UnknownError.

Definition kind_of (e : exn) : error_kind :=
  match exn_cls e with
  | ClientError => ClientInputError
  | RenderError => RemoteServiceError
  | _ => UnknownError
  end.

Definition is_4xx (code : N) : Prop := (400 <= code < 500)%N.
Definition is_5xx (code : N) : Prop := (500 <= code < 600)%N.

(** ** Task-definition metadata and the name fallback *)

Record Metadata : Type := mkMetadata {
  md_name : option string;
  md_slug : option string
}.

(** The pure part of [get_task_name]: lines 68 to 70. *)
Definition task_name_of (data : Metadata) (task_def_id : string) : string :=
  let task_name := PyStr.or_else (md_name data) task_def_id in
  let slug := match md_slug data with Some s => s | None => "" end in
  if negb (PyStr.truthy_opt (md_name data)) && PyStr.contains_char PyStr.slash slug
  then PyStr.last_segment PyStr.slash slug
  else task_name.

(** The chain as the specification words it: the name when present, else
    the last path segment of the slug, else the identifier. *)
Definition spec_task_name (data : Metadata) (task_def_id : string) : string :=
  match md_name data, md_slug data with
  | Some n, _ => n
  | None, Some s => PyStr.last_segment PyStr.slash s
  | None, None => task_def_id
  end.

(** ** The name cache

    [_task_name_cache = TTLCache(maxsize=1000, ttl=3600)]. *)

Module TTLCache.

Definition maxsize : nat := 1000.
Definition ttl : N := 3600.

Record entry : Type := mkEntry {
  e_key : string;
  e_value : string;
  e_expires : N
}.

(** Modelled from the spec: the class [TTLCache] comes from the
    [cachetools] package and is not part of the sources; the cache is
    modelled from sections 3 and 4.1 (bounded size, expiry a fixed
    time after the store, least-recently-used eviction on insert).
    Entries are kept in order of use, least recently used first. *)
Definition t : Type := list entry.

Definition empty : t := [].

Definition live (now : N) (e : entry) : bool := (now <? e_expires e)%N.

Definition has_key (k : string) (e : entry) : bool := String.eqb (e_key e) k.

Definition lookup (k : string) (c : t) : option entry := find (has_key k) c.

Definition remove (k : string) (c : t) : t :=
  filter (fun e => negb (has_key k e)) c.

(** Modelled from the spec: [k in cache], true for a stored entry that
    has not expired; it does not count as a use. *)
Definition contains (now : N) (k : string) (c : t) : bool :=
  match lookup k c with
  | Some e => live now e
  | None => false
  end.

(** Modelled from the spec: [cache[k]], the stored value of a live
    entry, which becomes the most recently used one; [None] stands for
    the [KeyError] of a missing or expired key. *)
Definition getitem (now : N) (k : string) (c : t) : option (string * t) :=
  match lookup k c with
  | Some e => if live now e then Some (e_value e, (remove k c ++ [e])%list) else None
  | None => None
  end.

(** Modelled from the spec: [cache.get(k, default)]. *)
Definition get (now : N) (k : string) (default : string) (c : t) : string * t :=
  if contains now k c then
    match getitem now k c with
    | Some r => r
    | None => (default, c)
    end
  else (default, c).

(** Modelled from the spec: entries past their expiry are dropped. *)
Definition expire (now : N) (c : t) : t := filter (live now) c.

(** Modelled from the spec: room is made for one more entry by dropping
    entries from the least recently used end. *)
Definition evict (c : t) : t := skipn (List.length c + 1 - maxsize) c.

(** Modelled from the spec: [cache[k] = v] at time [now]. Expired
    entries go first; a new key makes room at the bound; the entry is
    stored as the most recently used with expiry [now + ttl]. *)
Definition setitem (now : N) (k v : string) (c : t) : t :=
  let c1 := expire now c in
  let c2 := match lookup k c1 with
            | Some _ => c1
            | None => evict c1
            end in
  (remove k c2 ++ [mkEntry k v (now + ttl)%N])%list.

Definition keys (c : t) : list string := map e_key c.

(** A cache as the operations build it. *)
Definition wf (c : t) : Prop := NoDup (keys c) /\ List.length c <= maxsize.

(** What a reader sees at time [now]. *)
Definition peek (now : N) (k : string) (c : t) : option string :=
  match lookup k c with
  | Some e => if live now e then Some (e_value e) else None
  | None => None
  end.

(** The operations of a trace, each with the clock reading it ran at. *)
Inductive op : Type :=
| Contains (now : N) (k : string)
| GetItem (now : N) (k : string)
| SetItem (now : N) (k v : string).

Definition step (c : t) (o : op) : t :=
  match o with
  | Contains _ _ => c
  | GetItem now k =>
      match getitem now k c with
      | Some (_, c') => c'
      | None => c
      end
  | SetItem now k v => setitem now k v c
  end.

Definition run (ops : list op) (c : t) : t := fold_left step ops c.

(** Every entry of a cache built by a trace comes from a store of the
    trace and expires [ttl] after it. *)
Definition from_stores (ops : list op) (c : t) : Prop :=
  forall e, In e c ->
    exists s, In (SetItem s (e_key e) (e_value e)) ops
              /\ e_expires e = (s + ttl)%N.

(** The store of [k] with value [v] happened at time [s] in the trace. *)
Definition stored_at (ops : list op) (k v : string) (s : N) : Prop :=
  In (SetItem s k v) ops.

End TTLCache.

(** ** Remote platform, world and the monad *)

Definition Payload : Type := string.

(** A task run as the SDK returns it. *)
Record TaskRun : Type := mkTaskRun {
  tr_id : string;
  tr_status : string;
  tr_retries : N;
  tr_results : Payload
}.

(** A raw run record of the [/task-runs] listing; a field is [None] when
    the key is missing. *)
Record RawRun : Type := mkRawRun {
  rr_id : option string;
  rr_status : option string;
  rr_taskId : option string;
  rr_startedAt : option string;
  rr_completedAt : option string;
  rr_input : option (list Payload)
}.

(** One entry of the report's ["tasks"] list. *)
Record Summary : Type := mkSummary {
  s_id : option string;
  s_status : option string;
  s_task_id : string;
  s_startedAt : option string;
  s_completedAt : option string;
  s_input : option Payload
}.

(** The dictionary [fetch_task_status] returns; [rp_results] is [None]
    when the key ["results"] is absent. *)
Record Report : Type := mkReport {
  rp_id : string;
  rp_status : string;
  rp_retries : N;
  rp_tasks : list Summary;
  rp_results : option Payload
}.

(** A remote call, as logged. *)
Inductive Call : Type :=
| SdkGetTaskRun (task_run_id : string)
| HttpGetTaskRuns (rootTaskRunId : string) (limit : N) (bearer : string)
| HttpGetTask (task_def_id : string) (bearer : string).

(** What an HTTP GET gives back: an exception of the transport (network
    error, timeout) or a response with a status code and a body, [None]
    when the body is not JSON of the expected shape. *)
Inductive HttpReply (A : Type) : Type :=
| Failed (e : exn)
| Response (status : N) (body : option A).
Arguments Failed {A} e.
Arguments Response {A} status body.

(** The platform and the runtime, as oracles: what each call answers at
    a clock reading, how long it takes, and the order in which a [set]
    of strings is iterated. *)
Record Platform : Type := mkPlatform {
  task_run_reply : string -> N -> exn + TaskRun;
  task_runs_reply : string -> N -> HttpReply (list RawRun);
  task_reply : string -> N -> HttpReply Metadata;
  latency : Call -> N -> N;
  set_iter : list string -> list string
}.

Record World : Type := mkWorld {
  cache : TTLCache.t;
  clock : N;
  api_key_env : option string;
  calls : list Call
}.

Inductive Result (A : Type) : Type :=
| Return (a : A)
| Raise (e : exn).
Arguments Return {A} a.
Arguments Raise {A} e.

Definition M (A : Type) : Type := World -> Result A * World.

Definition ret {A} (a : A) : M A := fun w => (Return a, w).

Definition bind {A B} (m : M A) (f : A -> M B) : M B :=
  fun w => match m w with
           | (Return a, w') => f a w'
           | (Raise e, w') => (Raise e, w')
           end.

Definition raise {A} (e : exn) : M A := fun w => (Raise e, w).

(** [try: body  except Exception as e: handler(e)]. *)
Definition try_except {A} (body : M A) (handler : exn -> M A) : M A :=
  fun w => match body w with
           | (Return a, w') => (Return a, w')
           | (Raise e, w') => handler e w'
           end.

Declare Scope py_scope.
Delimit Scope py_scope with py.
Notation "x <- m ;; k" := (bind m (fun x => k))
  (at level 61, m at next level, right associativity) : py_scope.
Notation "m ;; k" := (bind m (fun _ => k))
  (at level 61, right associativity) : py_scope.
Local Open Scope py_scope.

(** [for x in xs: body(x)]. *)
Fixpoint for_each {A} (xs : list A) (body : A -> M unit) : M unit :=
  match xs with
  | [] => ret tt
  | x :: rest => body x ;; for_each rest body
  end.

(** A loop that appends to an accumulator, skipping where the body
    says [continue] ([None]). *)
Fixpoint for_append {A B} (xs : list A) (body : A -> M (option B)) (acc : list B)
  : M (list B) :=
  match xs with
  | [] => ret acc
  | x :: rest =>
      r <- body x ;;
      for_append rest body (match r with Some b => (acc ++ [b])%list | None => acc end)
  end.

(** ** Primitives on the world *)

Definition set_cache (c : TTLCache.t) (w : World) : World :=
  mkWorld c (clock w) (api_key_env w) (calls w).

(** [os.environ.get("RENDER_API_KEY")]. *)
Definition getenv_api_key : M (option string) :=
  fun w => (Return (api_key_env w), w).

(** [k in _task_name_cache]. *)
Definition cache_contains (k : string) : M bool :=
  fun w => (Return (TTLCache.contains (clock w) k (cache w)), w).

(** [_task_name_cache[k]]. *)
Definition cache_getitem (k : string) : M string :=
  fun w => match TTLCache.getitem (clock w) k (cache w) with
           | Some (v, c') => (Return v, set_cache c' w)
           | None => (Raise (mkExn KeyError k), w)
           end.

(** [_task_name_cache.get(k, default)]. *)
Definition cache_get (k default : string) : M string :=
  fun w => let (v, c') := TTLCache.get (clock w) k default (cache w) in
           (Return v, set_cache c' w).

(** [_task_name_cache[k] = v]. *)
Definition cache_setitem (k v : string) : M unit :=
  fun w => (Return tt, set_cache (TTLCache.setitem (clock w) k v (cache w)) w).

(** Awaiting a remote call: the call is logged and the clock moves on by
    the time the call took. *)
Definition await_call (P : Platform) (c : Call) (w : World) : World :=
  mkWorld (cache w) (clock w + latency P c (clock w))%N (api_key_env w)
          (calls w ++ [c])%list.

(** [await client.workflows.get_task_run(task_run_id)]. *)
Definition sdk_get_task_run (P : Platform) (task_run_id : string) : M TaskRun :=
  fun w => let w' := await_call P (SdkGetTaskRun task_run_id) w in
           match task_run_reply P task_run_id (clock w) with
           | inl e => (Raise e, w')
           | inr task_run => (Return task_run, w')
           end.

(** [await client.get(url, ...)] of [httpx]. *)
Definition client_get {A} (P : Platform) (c : Call) (reply : N -> HttpReply A)
  : M (N * option A) :=
  fun w => let w' := await_call P c w in
           match reply (clock w) with
           | Failed e => (Raise e, w')
           | Response status body => (Return (status, body), w')
           end.

(** [response.is_success]: a 2xx status. *)
Definition is_2xx (status : N) : bool :=
  ((200 <=? status) && (status <? 300))%N.

(** [response.raise_for_status()]: anything but a 2xx status raises. *)
Definition raise_for_status {A} (response : N * option A) : M unit :=
  if is_2xx (fst response) then ret tt
  else raise (mkExn HTTPStatusError "status").

(** [response.json()]. *)
Definition response_json {A} (response : N * option A) : M A :=
  match snd response with
  | Some data => ret data
  | None => raise (mkExn JSONDecodeError "body")
  end.

(** ** get_task_name *)

Definition get_task_name (P : Platform) (task_def_id api_key : string) : M string :=
  hit <- cache_contains task_def_id ;;
  if hit then cache_getitem task_def_id
  else
    try_except
      (response <- client_get P (HttpGetTask task_def_id api_key)
                     (task_reply P task_def_id) ;;
       raise_for_status response ;;
       data <- response_json response ;;
       let task_name := task_name_of data task_def_id in
       cache_setitem task_def_id task_name ;;
       ret task_name)
      (fun _ => ret task_def_id).

(** ** fetch_spawned_tasks *)

(** [st.get("id") == task_run_id]. *)
Definition is_root (task_run_id : string) (st : RawRun) : bool :=
  match rr_id st with
  | Some i => String.eqb i task_run_id
  | None => false
  end.

(** The generator of lines 104 and 105, before it becomes a set. *)
Definition referenced_task_ids (task_run_id : string) (data : list RawRun)
  : list string :=
  flat_map (fun st =>
              match rr_taskId st with
              | Some tid =>
                  if negb (is_root task_run_id st) && PyStr.truthy tid
                  then [tid] else []
              | None => []
              end) data.

(** Lines 108 to 110. *)
Definition prefetch (P : Platform) (api_key : string)
           (unique_task_ids : list string) : M unit :=
  for_each unique_task_ids
    (fun tid =>
       hit <- cache_contains tid ;;
       if negb hit then (_ <- get_task_name P tid api_key ;; ret tt)
       else ret tt).

(** The dictionary of lines 121 to 128, given the name. *)
Definition summary_of (st : RawRun) (task_name : string) : Summary :=
  let inputs := match rr_input st with Some l => l | None => [] end in
  mkSummary (rr_id st) (rr_status st) task_name
            (rr_startedAt st) (rr_completedAt st)
            (match inputs with
             | [] => None
             | x :: _ => Some x
             end).

(** The body of the loop of lines 113 to 128. *)
Definition summarise (task_run_id : string) (st : RawRun) : M (option Summary) :=
  if is_root task_run_id st then ret None
  else
    let task_def_id := match rr_taskId st with Some t => t | None => "" end in
    task_name <- cache_get task_def_id task_def_id ;;
    ret (Some (summary_of st task_name)).

Definition fetch_spawned_tasks (P : Platform) (task_run_id : string)
  : M (list Summary) :=
  api_key <- getenv_api_key ;;
  match api_key with
  | None => ret []
  | Some key =>
      if negb (PyStr.truthy key) then ret []
      else
        try_except
          (response <- client_get P (HttpGetTaskRuns task_run_id 100 key)
                         (task_runs_reply P task_run_id) ;;
           raise_for_status response ;;
           data <- response_json response ;;
           let unique_task_ids :=
             set_iter P (referenced_task_ids task_run_id data) in
           prefetch P key unique_task_ids ;;
           related_tasks <- for_append data (summarise task_run_id) [] ;;
           ret related_tasks)
          (fun e => if isinstance e HTTPStatusError then ret [] else ret [])
  end.

(** ** fetch_task_status *)

Definition fetch_task_status (P : Platform) (task_run_id : string) : M Report :=
  task_run <- sdk_get_task_run P task_run_id ;;
  tasks <- fetch_spawned_tasks P task_run_id ;;
  ret (mkReport (tr_id task_run) (tr_status task_run) (tr_retries task_run)
                tasks
                (if String.eqb (tr_status task_run) "completed"
                 then Some (tr_results task_run) else None)).

(** ** Observations used by the statements *)

Definition is_lookup_of (task_def_id : string) (c : Call) : bool :=
  match c with
  | HttpGetTask t _ => String.eqb t task_def_id
  | _ => false
  end.

(** Number of remote name lookups for an identifier in a call log. *)
Definition lookups_of (task_def_id : string) (log : list Call) : nat :=
  List.length (filter (is_lookup_of task_def_id) log).

Definition is_listing (c : Call) : bool :=
  match c with
  | HttpGetTaskRuns _ _ _ => true
  | _ => false
  end.

(** The [set] of line 103 lists each element once, in some order. *)
Definition set_iter_ok (P : Platform) : Prop :=
  forall l, NoDup (set_iter P l) /\ (forall x, In x (set_iter P l) <-> In x l).

(** The name a child shows, read from a cache at a clock reading: the
    cached name of its task definition, else the identifier. *)
Definition shown_name (c : TTLCache.t) (now : N) (st : RawRun) : string :=
  let task_def_id := match rr_taskId st with Some t => t | None => "" end in
  match TTLCache.peek now task_def_id c with
  | Some name => name
  | None => task_def_id
  end.

(** The child list as the specification words it: the platform's list
    without the entries that carry the root's id, in the same order, each
    mapped to its summary. *)
Definition spec_children (c : TTLCache.t) (now : N) (task_run_id : string)
           (data : list RawRun) : list Summary :=
  map (fun st => summary_of st (shown_name c now st))
      (filter (fun st => negb (is_root task_run_id st)) data).

(** A failure of a fetch, as the specification lists them: a network
    error or timeout of the transport, a response that is not 2xx, or a
    body that does not decode. *)
Definition fetch_fails {A} (r : HttpReply A) : Prop :=
  match r with
  | Failed _ => True
  | Response status body => is_2xx status = false \/ body = None
  end.

(** No entry of the cache under key [k] is live at time [now]. *)
Definition dead (k : string) (now : N) (c : TTLCache.t) : Prop :=
  forall e, In e c -> TTLCache.e_key e = k -> TTLCache.live now e = false.

(** ** Concrete platforms for the examples *)

Definition dedup_first (l : list string) : list string :=
  nodup string_dec l.

(** A platform that knows one root run, ["trn-root"], completed, answers
    every listing with [listing] and every task-definition fetch with
    [task]; each call takes one time unit. *)
Definition demo_platform (listing : HttpReply (list RawRun))
           (task : HttpReply Metadata) : Platform :=
  mkPlatform
    (fun id _ => if String.eqb id "trn-root"
                 then inr (mkTaskRun "trn-root" "completed" 2 "{}")
                 else inl (mkExn ClientError "task run not found"))
    (fun _ _ => listing)
    (fun _ _ => task)
    (fun _ _ => 1%N)
    dedup_first.

Definition demo_child (id tid : string) : RawRun :=
  mkRawRun (Some id) (Some "running") (Some tid)
           (Some "2025-01-01T00:00:00Z") None (Some ["https://example.com"]).

Definition demo_world : World :=
  mkWorld TTLCache.empty 0 (Some "rnd_key") [].

Definition demo_key (n : nat) : string :=
  "tsk-" ++ NilEmpty.string_of_uint (Nat.to_uint n).

(** A trace that stores a thousand names at time 0. *)
Definition demo_fill : list TTLCache.op :=
  map (fun n => TTLCache.SetItem 0 (demo_key n) "name") (seq 0 1000).

(** The cache after that trace: full. *)
Abbreviation demo_full := (TTLCache.run demo_fill TTLCache.empty) (only parsing).

Definition demo_expired_platform : Platform :=
  demo_platform (Response 200 (Some []))
                (Response 200 (Some (mkMetadata (Some "Seven") None))).

(** ** get_render_client *)

(** [str.lower()], on the letters [A] to [Z]; no other character
    lowers to a letter of ["true"]. *)
Definition lower_char (c : ascii) : ascii :=
  let n := nat_of_ascii c in
  if Nat.leb 65 n && Nat.leb n 90 then ascii_of_nat (n + 32) else c.

Fixpoint str_lower (s : string) : string :=
  match s with
  | EmptyString => EmptyString
  | String c rest => String (lower_char c) (str_lower rest)
  end.

(** How the SDK client was built: [None] where the constructor was left
    to its defaults. *)
Record Render : Type := mkRender {
  r_token : option string;
  r_base_url : option string
}.

Definition local_dev_client : Render :=
  mkRender (Some "local-dev") (Some "http://localhost:8120").

Definition default_client : Render := mkRender None None.

(** [get_render_client()]: [use_local_dev_env] is the value of
    [RENDER_USE_LOCAL_DEV] in the environment, [_render] the module's
    global; the result is the client and the global afterwards. *)
Definition get_render_client (use_local_dev_env : option string)
           (_render : option Render) : Render * option Render :=
  match _render with
  | None =>
      let use_local_dev :=
        String.eqb
          (str_lower (match use_local_dev_env with Some v => v | None => "" end))
          "true" in
      let r := if use_local_dev then local_dev_client else default_client in
      (r, Some r)
  | Some r => (r, Some r)
  end.

(** ** More observations *)

(** The same world at another clock reading. *)
Definition at_clock (t : N) (w : World) : World :=
  mkWorld (cache w) t (api_key_env w) (calls w).

(** The list a call of [fetch_spawned_tasks] hands back. *)
Definition returned_tasks (r : Result (list Summary) * World) : list Summary :=
  match fst r with
  | Return l => l
  | Raise _ => []
  end.

Definition is_name_lookup (c : Call) : bool :=
  match c with
  | HttpGetTask _ _ => true
  | _ => false
  end.

(** A lookup, under the bearer [key], of the task definition of a child
    of the listing [data] that is not the root. *)
Definition lookup_for_child (task_run_id key : string) (data : list RawRun)
           (c : Call) : Prop :=
  exists st tid,
    In st data /\ is_root task_run_id st = false /\
    rr_taskId st = Some tid /\ tid <> "" /\ c = HttpGetTask tid key.


(** ** Order of use

    Which key was used when, read off a trace and not off the cache: a
    store of a key uses it, and so does a read that finds it; a
    membership test does not. *)

Definition is_use (c : TTLCache.t) (o : TTLCache.op) (k : string) : bool :=
  match o with
  | TTLCache.Contains _ _ => false
  | TTLCache.GetItem now k' =>
      String.eqb k' k
      && match TTLCache.getitem now k' c with Some _ => true | None => false end
  | TTLCache.SetItem _ k' _ => String.eqb k' k
  end.

(** A cache run together with a record of the position in the trace at
    which each key was last used, and the position reached. *)
Definition stamped : Type := (TTLCache.t * (string -> option nat) * nat)%type.

Definition stamp_step (s : stamped) (o : TTLCache.op) : stamped :=
  match s with
  | (c, u, i) =>
      (TTLCache.step c o,
       (fun k => if is_use c o k then Some i else u k),
       S i)
  end.

Definition run_stamped (ops : list TTLCache.op) : stamped :=
  fold_left stamp_step ops (TTLCache.empty, (fun _ => None), 0).

(** The position in [ops] of the last use of [k], if it was used. *)
Definition last_use (ops : list TTLCache.op) (k : string) : option nat :=
  snd (fst (run_stamped ops)) k.

Definition use_lt (u : string -> option nat) (a b : string) : Prop :=
  match u a, u b with
  | Some i, Some j => i < j
  | _, _ => False
  end.

(** In the trace [ops], key [a] was last used before key [b] was. *)
Definition used_before (ops : list TTLCache.op) (a b : string) : Prop :=
  use_lt (last_use ops) a b.

(** Every entry of the list was last used before the ones after it. *)
Fixpoint ordered_by (u : string -> option nat) (c : TTLCache.t) : Prop :=
  match c with
  | [] => True
  | a :: rest =>
      (forall b, In b rest -> use_lt u (TTLCache.e_key a) (TTLCache.e_key b))
      /\ ordered_by u rest
  end.

(** The state kept along a stamped run: every entry has been used, at a
    position already passed, and the list is in order of last use. *)
Definition stamped_ok (s : stamped) : Prop :=
  match s with
  | (c, u, i) =>
      (forall e, In e c -> exists j, u (TTLCache.e_key e) = Some j /\ j < i)
      /\ ordered_by u c
  end.

(** The trace [demo_fill] followed by a read of its first key. *)
Definition demo_fill_read : list TTLCache.op :=
  (demo_fill ++ [TTLCache.GetItem 1 (demo_key 0)])%list.

Abbreviation demo_read_full :=
  (TTLCache.run demo_fill_read TTLCache.empty) (only parsing).

(** * Proofs *)

Ltac unfold_monad :=
  unfold bind, ret, raise, try_except, cache_contains, cache_getitem,
    cache_setitem, cache_get, client_get, raise_for_status, response_json,
    getenv_api_key, sdk_get_task_run in *.

(** ** Strings *)

Lemma prefix_app (p s : string) : String.prefix p (p ++ s) = true.
Proof.
  induction p as [|a p IH]; simpl.
  - now destruct s.
  - destruct (ascii_dec a a); [exact IH|congruence].
Qed.

Lemma split_not_nil (c : ascii) (s : string) : PyStr.split c s <> [].
Proof.
  destruct s as [|a rest]; simpl; [discriminate|].
  destruct (Ascii.eqb a c); [discriminate|].
  destruct (PyStr.split c rest); discriminate.
Qed.

Lemma split_without_sep (c : ascii) (s : string) :
  PyStr.contains_char c s = false -> PyStr.split c s = [s].
Proof.
  induction s as [|a rest IH]; simpl; [reflexivity|].
  intros H. apply orb_false_iff in H. destruct H as [Ha Hrest].
  now rewrite Ha, (IH Hrest).
Qed.

Lemma split_with_sep (c : ascii) (s : string) :
  PyStr.contains_char c s = true ->
  exists seg seg' segs, PyStr.split c s = seg :: seg' :: segs.
Proof.
  induction s as [|a rest IH]; simpl; [discriminate|].
  intros H. destruct (Ascii.eqb a c) eqn:Eac.
  - destruct (PyStr.split c rest) as [|seg segs] eqn:Es;
      [now apply split_not_nil in Es|].
    now exists EmptyString, seg, segs.
  - destruct (IH H) as (seg & seg' & segs & Es). rewrite Es.
    now exists (String a seg), seg', segs.
Qed.

(** The last segment, one character at a time. *)
Lemma last_segment_cons (c a : ascii) (rest : string) :
  PyStr.last_segment c (String a rest) =
  if Ascii.eqb a c || PyStr.contains_char c rest
  then PyStr.last_segment c rest
  else String a rest.
Proof.
  unfold PyStr.last_segment. simpl.
  destruct (Ascii.eqb a c) eqn:Eac; simpl.
  - destruct (PyStr.split c rest) eqn:Es; [now apply split_not_nil in Es|].
    reflexivity.
  - destruct (PyStr.contains_char c rest) eqn:Erest.
    + destruct (split_with_sep c rest Erest) as (seg & seg' & segs & Es).
      now rewrite Es.
    + now rewrite (split_without_sep c rest Erest).
Qed.

(** The last segment of a string that holds the separator is what
    follows its last occurrence. *)
Lemma last_segment_spec (c : ascii) (s : string) :
  PyStr.contains_char c s = true ->
  exists front, s = front ++ String c (PyStr.last_segment c s).
Proof.
  induction s as [|a rest IH]; [discriminate|].
  intros H. rewrite last_segment_cons. simpl in H. rewrite H.
  destruct (PyStr.contains_char c rest) eqn:Erest.
  - destruct (IH eq_refl) as [front Hfront].
    exists (String a front). simpl. now rewrite <- Hfront.
  - rewrite orb_false_r in H. apply Ascii.eqb_eq in H. subst a.
    exists EmptyString. simpl. f_equal.
    unfold PyStr.last_segment. now rewrite (split_without_sep c rest Erest).
Qed.

Lemma last_segment_no_sep (c : ascii) (s : string) :
  PyStr.contains_char c (PyStr.last_segment c s) = false.
Proof.
  induction s as [|a rest IH]; [reflexivity|].
  rewrite last_segment_cons.
  destruct (Ascii.eqb a c || PyStr.contains_char c rest) eqn:E; [exact IH|].
  simpl. exact E.
Qed.

(** ** C2: the error mapper *)

(** C2 (as amended): [to_sdk_error_response] assigns every exception one
    outcome by its kind: a client error the status 400, in the 4xx class,
    with a message beginning ["Client error: "]; another SDK error the
    status 500, in the 5xx class, with a message beginning
    ["Render API error: "]; any other exception the status 500 with the
    raw message. *)
Theorem to_sdk_error_response_by_kind (e : exn) :
  match kind_of e with
  | ClientInputError =>
      is_4xx (fst (to_sdk_error_response e)) /\
      String.prefix "Client error: " (snd (to_sdk_error_response e)) = true /\
      to_sdk_error_response e = (400%N, "Client error: " ++ exn_str e)
  | RemoteServiceError =>
      is_5xx (fst (to_sdk_error_response e)) /\
      String.prefix "Render API error: " (snd (to_sdk_error_response e)) = true /\
      to_sdk_error_response e = (500%N, "Render API error: " ++ exn_str e)
  | UnknownError =>
      is_5xx (fst (to_sdk_error_response e)) /\
      to_sdk_error_response e = (500%N, exn_str e)
  end.
Proof.
  destruct e as [cls msg]. unfold kind_of, to_sdk_error_response, is_4xx, is_5xx.
  destruct cls; cbn -[String.prefix String.append];
    repeat split; try lia; apply prefix_app.
Qed.

(** C2 (counterexample): an SDK error that is not a client error gets a
    message that does not begin with ["Remote service error: "]. *)
Lemma to_sdk_error_response_remote_prefix_differs :
  kind_of (mkExn RenderError "boom") = RemoteServiceError /\
  String.prefix "Remote service error: "
    (snd (to_sdk_error_response (mkExn RenderError "boom"))) = false /\
  to_sdk_error_response (mkExn RenderError "boom")
  = (500%N, "Render API error: boom").
Proof. repeat split. Qed.

(** ** The cache *)

Module CacheFacts.
Import TTLCache.
Local Open Scope list_scope.

Lemma maxsize_pos : 1 <= maxsize.
Proof. unfold maxsize. lia. Qed.

Lemma has_key_true (k : string) (e : entry) : has_key k e = true <-> e_key e = k.
Proof. unfold has_key. apply String.eqb_eq. Qed.

Lemma lookup_some (k : string) (c : t) (e : entry) :
  lookup k c = Some e -> In e c /\ e_key e = k.
Proof.
  unfold lookup. intros H. apply find_some in H.
  now rewrite has_key_true in H.
Qed.

Lemma lookup_none (k : string) (c : t) :
  lookup k c = None <-> ~ In k (keys c).
Proof.
  unfold lookup, keys. split.
  - intros H Hin. apply in_map_iff in Hin. destruct Hin as (e & Hk & He).
    apply (find_none _ _ H) in He. apply has_key_true in Hk. congruence.
  - intros H. destruct (find (has_key k) c) as [e|] eqn:E; [|reflexivity].
    apply find_some in E. destruct E as [He Hk]. apply has_key_true in Hk.
    exfalso. apply H. apply in_map_iff. now exists e.
Qed.

Lemma lookup_app (k : string) (a b : t) :
  lookup k (a ++ b) =
  match lookup k a with Some e => Some e | None => lookup k b end.
Proof.
  unfold lookup. induction a as [|x a IH]; simpl; [reflexivity|].
  now destruct (has_key k x).
Qed.

Lemma lookup_remove_same (k : string) (c : t) : lookup k (remove k c) = None.
Proof.
  unfold lookup, remove. induction c as [|x c IH]; simpl; [reflexivity|].
  destruct (has_key k x) eqn:E; simpl; [exact IH|]. now rewrite E.
Qed.

Lemma lookup_remove_other (k k' : string) (c : t) :
  k' <> k -> lookup k' (remove k c) = lookup k' c.
Proof.
  intros Hne. unfold lookup, remove.
  induction c as [|x c IH]; simpl; [reflexivity|].
  destruct (has_key k x) eqn:E; simpl.
  - destruct (has_key k' x) eqn:E'; [|exact IH].
    apply has_key_true in E, E'. congruence.
  - now destruct (has_key k' x).
Qed.

Lemma remove_absent (k : string) (c : t) : lookup k c = None -> remove k c = c.
Proof.
  unfold lookup, remove. induction c as [|x c IH]; simpl; [reflexivity|].
  destruct (has_key k x); simpl; [discriminate|].
  intros H. now rewrite IH.
Qed.

Lemma remove_present_length (k : string) (c : t) (e : entry) :
  lookup k c = Some e -> List.length (remove k c) < List.length c.
Proof.
  unfold lookup, remove. induction c as [|x c IH]; simpl; [discriminate|].
  destruct (has_key k x); simpl.
  - intros _. pose proof (filter_length_le (fun e => negb (has_key k e)) c). lia.
  - intros H. apply IH in H. lia.
Qed.

Lemma remove_length (k : string) (c : t) :
  List.length (remove k c) <= List.length c.
Proof. apply filter_length_le. Qed.

Lemma evict_length (c : t) : List.length (evict c) <= maxsize - 1.
Proof. unfold evict. rewrite length_skipn. lia. Qed.

Lemma evict_incl (c : t) (e : entry) : In e (evict c) -> In e c.
Proof.
  unfold evict. intros H.
  rewrite <- (firstn_skipn (List.length c + 1 - maxsize) c).
  apply in_or_app. now right.
Qed.

Lemma keys_filter_NoDup (f : entry -> bool) (c : t) :
  NoDup (keys c) -> NoDup (keys (filter f c)).
Proof.
  unfold keys. induction c as [|x c IH]; simpl; [constructor|].
  intros H. inversion H as [|? ? Hx Hc]; subst.
  destruct (f x); simpl; [|now apply IH].
  constructor; [|now apply IH].
  intros Hin. apply Hx. apply in_map_iff in Hin.
  destruct Hin as (e & Hk & He). apply filter_In in He.
  apply in_map_iff. exists e. tauto.
Qed.

Lemma keys_skipn_NoDup (n : nat) (c : t) :
  NoDup (keys c) -> NoDup (keys (skipn n c)).
Proof.
  unfold keys. revert c. induction n as [|n IH]; intros c H; simpl; [exact H|].
  destruct c as [|x c]; [exact H|]. apply IH. now inversion H.
Qed.

Lemma keys_snoc_NoDup (c : t) (e : entry) :
  NoDup (keys c) -> lookup (e_key e) c = None -> NoDup (keys (c ++ [e])).
Proof.
  intros Hc Hk. apply lookup_none in Hk. unfold keys in *.
  rewrite map_app. simpl.
  apply NoDup_app; [exact Hc|repeat constructor; intros []|].
  intros a Ha [<-|[]]. now apply Hk.
Qed.

(** Storing keeps the cache well formed: keys stay distinct and the
    bound holds. *)
Lemma setitem_wf (now : N) (k v : string) (c : t) :
  wf c -> wf (setitem now k v c).
Proof.
  intros [Hnd Hlen]. unfold wf, setitem.
  assert (Hexp : List.length (expire now c) <= maxsize).
  { unfold expire. pose proof (filter_length_le (live now) c). lia. }
  assert (Hnd1 : NoDup (keys (expire now c))) by now apply keys_filter_NoDup.
  pose proof maxsize_pos as Hpos.
  split.
  - apply keys_snoc_NoDup; [|apply lookup_remove_same].
    apply keys_filter_NoDup.
    destruct (lookup k (expire now c)); [exact Hnd1|].
    now apply keys_skipn_NoDup.
  - rewrite length_app. simpl.
    destruct (lookup k (expire now c)) as [e|] eqn:E.
    + pose proof (remove_present_length k _ e E). lia.
    + pose proof (remove_length k (evict (expire now c))).
      pose proof (evict_length (expire now c)). lia.
Qed.

Lemma getitem_wf (now : N) (k : string) (c : t) (v : string) (c' : t) :
  wf c -> getitem now k c = Some (v, c') -> wf c'.
Proof.
  intros [Hnd Hlen]. unfold getitem.
  destruct (lookup k c) as [e|] eqn:E; [|discriminate].
  destruct (live now e); [|discriminate].
  intros H. injection H as _ <-.
  destruct (lookup_some _ _ _ E) as [_ Hk].
  split.
  - apply keys_snoc_NoDup; [now apply keys_filter_NoDup|].
    rewrite Hk. apply lookup_remove_same.
  - rewrite length_app. simpl.
    pose proof (remove_present_length k c e E). lia.
Qed.

Lemma step_wf (c : t) (o : op) : wf c -> wf (step c o).
Proof.
  intros H. destruct o as [now k|now k|now k v]; simpl; [exact H| |].
  - destruct (getitem now k c) as [[v c']|] eqn:E; [|exact H].
    eapply getitem_wf; eauto.
  - now apply setitem_wf.
Qed.

Lemma run_wf (ops : list op) (c : t) : wf c -> wf (run ops c).
Proof.
  unfold run. revert c. induction ops as [|o ops IH]; intros c H; simpl;
    [exact H|].
  apply IH. now apply step_wf.
Qed.

Lemma empty_wf : wf empty.
Proof. split; [constructor|simpl; lia]. Qed.

(** At the bound, storing a new key drops the head of the order of
    use and nothing else. *)
Lemma setitem_at_bound (now : N) (k v : string) (c : t) :
  List.length (expire now c) = maxsize ->
  lookup k (expire now c) = None ->
  setitem now k v c = (tl (expire now c) ++ [mkEntry k v (now + ttl)])%list.
Proof.
  intros Hlen Hk. unfold setitem. rewrite Hk. unfold evict.
  replace (List.length (expire now c) + 1 - maxsize) with 1 by lia.
  destruct (expire now c) as [|x c1] eqn:E; simpl.
  - reflexivity.
  - rewrite remove_absent; [reflexivity|].
    unfold lookup in *. simpl in Hk. now destruct (has_key k x).
Qed.

(** Below the bound nothing is dropped. *)
Lemma setitem_below_bound (now : N) (k v : string) (c : t) :
  List.length (expire now c) < maxsize ->
  setitem now k v c
  = (remove k (expire now c) ++ [mkEntry k v (now + ttl)])%list.
Proof.
  intros Hlen. unfold setitem, evict.
  destruct (lookup k (expire now c)); [reflexivity|].
  replace (List.length (expire now c) + 1 - maxsize) with 0 by lia.
  reflexivity.
Qed.

Lemma from_stores_step (ops : list op) (c : t) (o : op) :
  from_stores ops c -> from_stores (ops ++ [o]) (step c o).
Proof.
  intros H e He.
  assert (Hold : In e c ->
                 exists s, In (SetItem s (e_key e) (e_value e)) (ops ++ [o])
                           /\ e_expires e = (s + ttl)%N).
  { intros Hin. destruct (H e Hin) as (s & Hs & Hx).
    exists s. split; [apply in_or_app; now left|exact Hx]. }
  destruct o as [now k|now k|now k v]; simpl in He.
  - now apply Hold.
  - unfold getitem in He. destruct (lookup k c) as [e0|] eqn:E;
      [|now apply Hold].
    destruct (live now e0); [|now apply Hold].
    apply in_app_or in He. destruct He as [He|[<-|[]]].
    + apply Hold. unfold remove in He. now apply filter_In in He.
    + apply Hold. now apply lookup_some in E.
  - unfold setitem in He. apply in_app_or in He.
    destruct He as [He|[<-|[]]].
    + apply Hold. unfold remove in He. apply filter_In in He.
      destruct He as [He _].
      assert (Hexp : In e (expire now c)).
      { destruct (lookup k (expire now c)); [exact He|].
        now apply evict_incl. }
      unfold expire in Hexp. now apply filter_In in Hexp.
    + exists now. simpl. split; [|reflexivity].
      apply in_or_app. right. now left.
Qed.

Lemma from_stores_run (ops : list op) : from_stores ops (run ops empty).
Proof.
  induction ops as [|o ops IH] using rev_ind.
  - intros e [].
  - unfold run. rewrite fold_left_app. simpl. now apply from_stores_step.
Qed.

Lemma peek_contains (now : N) (k : string) (c : t) :
  contains now k c = match peek now k c with Some _ => true | None => false end.
Proof.
  unfold contains, peek. destruct (lookup k c) as [e|]; [|reflexivity].
  now destruct (live now e).
Qed.

Lemma contains_false_peek (now : N) (k : string) (c : t) :
  contains now k c = false -> peek now k c = None.
Proof.
  rewrite peek_contains. now destruct (peek now k c).
Qed.

Lemma getitem_peek (now : N) (k : string) (c : t) :
  option_map fst (getitem now k c) = peek now k c.
Proof.
  unfold getitem, peek. destruct (lookup k c) as [e|]; [|reflexivity].
  now destruct (live now e).
Qed.

(** A read moves the entry it finds and changes no answer. *)
Lemma peek_after_getitem (now now' : N) (k k' : string) (c c' : t) (v : string) :
  getitem now k c = Some (v, c') -> peek now' k' c' = peek now' k' c.
Proof.
  unfold getitem, peek.
  destruct (lookup k c) as [e|] eqn:E; [|discriminate].
  destruct (live now e); [|discriminate].
  intros H. injection H as _ <-.
  destruct (lookup_some _ _ _ E) as [_ Hk].
  rewrite lookup_app. destruct (String.eqb_spec k' k) as [->|Hne].
  - rewrite lookup_remove_same, E. unfold lookup. simpl.
    now rewrite (proj2 (has_key_true k e) Hk).
  - rewrite (lookup_remove_other k k' c Hne).
    destruct (lookup k' c); [reflexivity|].
    unfold lookup. simpl.
    destruct (has_key k' e) eqn:E'; [|reflexivity].
    apply has_key_true in E'. congruence.
Qed.

Lemma peek_after_get (now now' : N) (k k' d : string) (c : t) :
  peek now' k' (snd (get now k d c)) = peek now' k' c.
Proof.
  unfold get. destruct (contains now k c); [|reflexivity].
  destruct (getitem now k c) as [[v c']|] eqn:E; [|reflexivity].
  simpl. eapply peek_after_getitem; eauto.
Qed.

Lemma get_value (now : N) (k d : string) (c : t) :
  fst (get now k d c) = match peek now k c with Some v => v | None => d end.
Proof.
  unfold get. rewrite peek_contains. rewrite <- getitem_peek.
  destruct (getitem now k c) as [[v c']|]; reflexivity.
Qed.

(** After a store the key reads back until its expiry. *)
Lemma peek_setitem_same (now now' : N) (k v : string) (c : t) :
  peek now' k (setitem now k v c)
  = if (now' <? now + ttl)%N then Some v else None.
Proof.
  unfold peek, setitem. rewrite lookup_app, lookup_remove_same.
  unfold lookup. simpl. unfold has_key. simpl. now rewrite String.eqb_refl.
Qed.

Lemma contains_false_setitem_other (now now' : N) (k k' v : string) (c : t) :
  k' <> k -> lookup k' c = None -> lookup k' (setitem now k v c) = None.
Proof.
  intros Hne Hk. apply lookup_none. intros Hin.
  unfold keys in Hin. apply in_map_iff in Hin.
  destruct Hin as (e & Hke & He). unfold setitem in He.
  apply in_app_or in He. destruct He as [He|[<-|[]]].
  - unfold remove in He. apply filter_In in He. destruct He as [He _].
    assert (Hexp : In e (expire now c)).
    { destruct (lookup k (expire now c)); [exact He|now apply evict_incl]. }
    unfold expire in Hexp. apply filter_In in Hexp.
    apply lookup_none in Hk. apply Hk. apply in_map_iff. exists e. tauto.
  - simpl in Hke. congruence.
Qed.

End CacheFacts.

(** ** Name resolution *)

Lemma lookups_of_app (k : string) (l l' : list Call) :
  lookups_of k (l ++ l')%list = lookups_of k l + lookups_of k l'.
Proof. unfold lookups_of. now rewrite filter_app, length_app. Qed.

Lemma lookups_of_one (k k' key : string) :
  lookups_of k [HttpGetTask k' key] = if String.eqb k' k then 1 else 0.
Proof. unfold lookups_of. simpl. now destruct (String.eqb k' k). Qed.

Lemma dead_contains (k : string) (now : N) (c : TTLCache.t) :
  dead k now c -> TTLCache.contains now k c = false.
Proof.
  intros H. unfold TTLCache.contains.
  destruct (TTLCache.lookup k c) as [e|] eqn:E; [|reflexivity].
  apply CacheFacts.lookup_some in E. now apply H.
Qed.

Lemma keys_unique (c : TTLCache.t) (e e' : TTLCache.entry) :
  NoDup (TTLCache.keys c) -> In e c -> In e' c ->
  TTLCache.e_key e = TTLCache.e_key e' -> e = e'.
Proof.
  unfold TTLCache.keys. induction c as [|x c IH]; simpl; [intros _ []|].
  intros Hnd He He' Hk. inversion Hnd as [|? ? Hx Hc]; subst.
  destruct He as [->|He], He' as [->|He']; auto.
  - exfalso. apply Hx. rewrite Hk. now apply in_map.
  - exfalso. apply Hx. rewrite <- Hk. now apply in_map.
Qed.

Lemma contains_dead (k : string) (now : N) (c : TTLCache.t) :
  TTLCache.wf c -> TTLCache.contains now k c = false -> dead k now c.
Proof.
  intros [Hnd _] H e He Hk. unfold TTLCache.contains in H.
  destruct (TTLCache.lookup k c) as [e0|] eqn:E.
  - destruct (CacheFacts.lookup_some _ _ _ E) as [He0 Hk0].
    assert (e = e0) by (eapply keys_unique; eauto; congruence).
    now subst.
  - apply CacheFacts.lookup_none in E. exfalso. apply E.
    unfold TTLCache.keys. rewrite <- Hk. now apply in_map.
Qed.

Lemma dead_later (k : string) (now now' : N) (c : TTLCache.t) :
  (now <= now')%N -> dead k now c -> dead k now' c.
Proof.
  intros Hle H e He Hk. specialize (H e He Hk).
  unfold TTLCache.live in *. apply N.ltb_ge in H. apply N.ltb_ge. lia.
Qed.

Lemma dead_setitem_other (k k' v : string) (now t : N) (c : TTLCache.t) :
  k <> k' -> dead k now c -> dead k now (TTLCache.setitem t k' v c).
Proof.
  intros Hne H e He Hk. unfold TTLCache.setitem in He.
  apply in_app_or in He. destruct He as [He|[<-|[]]].
  - apply H; [|exact Hk]. unfold TTLCache.remove in He.
    apply filter_In in He. destruct He as [He _].
    assert (Hexp : In e (TTLCache.expire t c)).
    { destruct (TTLCache.lookup k' (TTLCache.expire t c));
        [exact He|now apply CacheFacts.evict_incl]. }
    unfold TTLCache.expire in Hexp. now apply filter_In in Hexp.
  - simpl in Hk. congruence.
Qed.

Lemma contains_later (k : string) (now now' : N) (c : TTLCache.t) :
  (now <= now')%N ->
  TTLCache.contains now k c = false -> TTLCache.contains now' k c = false.
Proof.
  unfold TTLCache.contains, TTLCache.live. intros Hle H.
  destruct (TTLCache.lookup k c) as [e|]; [|reflexivity].
  apply N.ltb_ge in H. apply N.ltb_ge. lia.
Qed.

Section Resolve.
Variable P : Platform.

(** A hit answers from the cache and calls nobody. *)
Lemma get_task_name_hit (k key : string) (w : World) :
  TTLCache.contains (clock w) k (cache w) = true ->
  exists v c',
    TTLCache.getitem (clock w) k (cache w) = Some (v, c') /\
    TTLCache.peek (clock w) k (cache w) = Some v /\
    get_task_name P k key w = (Return v, set_cache c' w).
Proof.
  intros H. unfold get_task_name. unfold_monad. rewrite H.
  pose proof (CacheFacts.getitem_peek (clock w) k (cache w)) as Hp.
  rewrite CacheFacts.peek_contains in H.
  destruct (TTLCache.peek (clock w) k (cache w)) as [v|]; [|discriminate].
  destruct (TTLCache.getitem (clock w) k (cache w)) as [[v' c']|];
    [|discriminate].
  simpl in Hp. injection Hp as ->. now exists v, c'.
Qed.

(** A miss whose fetch succeeds stores the name and returns it. *)
Lemma get_task_name_fetched (k key : string) (w : World) (st : N) (data : Metadata) :
  TTLCache.contains (clock w) k (cache w) = false ->
  task_reply P k (clock w) = Response st (Some data) ->
  is_2xx st = true ->
  let w1 := await_call P (HttpGetTask k key) w in
  get_task_name P k key w =
  (Return (task_name_of data k),
   set_cache (TTLCache.setitem (clock w1) k (task_name_of data k) (cache w1)) w1).
Proof.
  intros H Hr Hst. unfold get_task_name. unfold_monad. rewrite H, Hr.
  simpl. now rewrite Hst.
Qed.

(** A miss whose fetch fails returns the identifier and stores nothing. *)
Lemma get_task_name_degraded (k key : string) (w : World) :
  TTLCache.contains (clock w) k (cache w) = false ->
  fetch_fails (task_reply P k (clock w)) ->
  get_task_name P k key w = (Return k, await_call P (HttpGetTask k key) w).
Proof.
  intros H Hf. unfold get_task_name. unfold_monad. rewrite H.
  destruct (task_reply P k (clock w)) as [e|st body]; simpl in *;
    [reflexivity|].
  destruct (is_2xx st) eqn:Est; [|reflexivity].
  destruct Hf as [Hf| ->]; [discriminate|reflexivity].
Qed.

Lemma fetch_fails_dec {A} (r : HttpReply A) :
  fetch_fails r \/ exists st data, r = Response st (Some data) /\ is_2xx st = true.
Proof.
  destruct r as [e|st [data|]]; simpl; auto.
  destruct (is_2xx st) eqn:E; auto.
  right. now exists st, data.
Qed.

(** What one resolution does to the world, whatever the platform says. *)
Lemma get_task_name_frame (k key : string) (w : World) :
  exists r w',
    get_task_name P k key w = (Return r, w') /\
    api_key_env w' = api_key_env w /\
    (clock w <= clock w')%N /\
    calls w' = (calls w ++
                if TTLCache.contains (clock w) k (cache w) then []
                else [HttpGetTask k key])%list /\
    (TTLCache.wf (cache w) -> TTLCache.wf (cache w')) /\
    (forall k', k' <> k -> dead k' (clock w) (cache w) ->
                dead k' (clock w') (cache w')).
Proof.
  destruct (TTLCache.contains (clock w) k (cache w)) eqn:H.
  - destruct (get_task_name_hit k key w H) as (v & c' & Hg & _ & ->).
    exists v, (set_cache c' w). simpl. rewrite app_nil_r.
    refine (conj eq_refl (conj eq_refl (conj _ (conj eq_refl (conj _ _)))));
      [lia| |].
    + intros Hwf. eapply CacheFacts.getitem_wf; eauto.
    + intros k' _ Hd e He Hk. apply Hd; [|exact Hk].
      unfold TTLCache.getitem in Hg.
      destruct (TTLCache.lookup k (cache w)) as [e0|] eqn:E; [|discriminate].
      destruct (TTLCache.live (clock w) e0); [|discriminate].
      injection Hg as _ <-. apply in_app_or in He.
      destruct He as [He|[<-|[]]].
      * unfold TTLCache.remove in He. now apply filter_In in He.
      * now apply CacheFacts.lookup_some in E.
  - destruct (fetch_fails_dec (task_reply P k (clock w)))
      as [Hf|(st & data & Hr & Hst)].
    + rewrite (get_task_name_degraded k key w H Hf).
      exists k, (await_call P (HttpGetTask k key) w). simpl.
      refine (conj eq_refl (conj eq_refl (conj _ (conj eq_refl (conj _ _)))));
        [lia|auto|].
      intros k' _ Hd. eapply dead_later; [|exact Hd]. lia.
    + rewrite (get_task_name_fetched k key w st data H Hr Hst).
      eexists _, _. split; [reflexivity|]. simpl.
      refine (conj eq_refl (conj _ (conj eq_refl (conj _ _)))); [lia| |].
      * intros Hwf. now apply CacheFacts.setitem_wf.
      * intros k' Hne Hd. apply dead_setitem_other; [exact Hne|].
        eapply dead_later; [|exact Hd]. lia.
Qed.

End Resolve.

(** ** The pre-fetch and the child list *)

Section Children.
Variable P : Platform.

(** One turn of the pre-fetch loop. *)
Lemma prefetch_turn (tid key : string) (w : World) :
  exists w',
    prefetch P key [tid] w = (Return tt, w') /\
    api_key_env w' = api_key_env w /\
    (clock w <= clock w')%N /\
    calls w' = (calls w ++
                if TTLCache.contains (clock w) tid (cache w) then []
                else [HttpGetTask tid key])%list /\
    (TTLCache.wf (cache w) -> TTLCache.wf (cache w')) /\
    (forall k', k' <> tid -> dead k' (clock w) (cache w) ->
                dead k' (clock w') (cache w')).
Proof.
  unfold prefetch. simpl. unfold bind at 1 2. unfold cache_contains at 1.
  destruct (TTLCache.contains (clock w) tid (cache w)) eqn:H; simpl.
  - exists w. unfold ret. rewrite app_nil_r.
    refine (conj eq_refl (conj eq_refl (conj _ (conj eq_refl (conj _ _)))));
      [lia|auto|auto].
  - destruct (get_task_name_frame P tid key w)
      as (r & w' & Hg & He & Hc & Hl & Hwf & Hd).
    rewrite H in Hl. exists w'. unfold bind, ret. rewrite Hg.
    auto 10.
Qed.

Lemma prefetch_cons (tid key : string) (ids : list string) (w : World) :
  prefetch P key (tid :: ids) w =
  match prefetch P key [tid] w with
  | (Return _, w') => prefetch P key ids w'
  | (Raise e, w') => (Raise e, w')
  end.
Proof.
  unfold prefetch. simpl. unfold bind, ret.
  destruct (cache_contains tid w) as [[hit|e] w0]; [|reflexivity].
  destruct (negb hit).
  - destruct (get_task_name P tid key w0) as [[r|e] w1]; reflexivity.
  - reflexivity.
Qed.


(** The pre-fetch never raises; it looks up only identifiers of its
    list, each at most once, and exactly once when the identifier was
    not live in the cache. *)
Lemma prefetch_frame (key : string) (ids : list string) (w : World) :
  exists w',
    prefetch P key ids w = (Return tt, w') /\
    api_key_env w' = api_key_env w /\
    (clock w <= clock w')%N /\
    (TTLCache.wf (cache w) -> TTLCache.wf (cache w')) /\
    (forall k, ~ In k ids ->
               lookups_of k (calls w') = lookups_of k (calls w)) /\
    (forall k, ~ In k ids -> dead k (clock w) (cache w) ->
               dead k (clock w') (cache w')) /\
    (NoDup ids -> forall k,
        lookups_of k (calls w') <= lookups_of k (calls w) + 1) /\
    (NoDup ids -> forall k, In k ids -> dead k (clock w) (cache w) ->
        lookups_of k (calls w') = lookups_of k (calls w) + 1).
Proof.
  revert w. induction ids as [|tid ids IH]; intros w.
  - exists w. unfold prefetch. simpl. unfold ret.
    refine (conj eq_refl (conj eq_refl (conj _ (conj _ (conj _
             (conj _ (conj _ _))))))); auto; try lia.
  - rewrite prefetch_cons.
    destruct (prefetch_turn tid key w)
      as (w1 & Ht & He1 & Hc1 & Hl1 & Hwf1 & Hd1).
    rewrite Ht.
    destruct (IH w1) as (w' & Hp & He & Hc & Hwf & Hout & Hdout & Hle & Heq).
    exists w'.
    assert (Hstep : forall k,
               lookups_of k (calls w1) =
               lookups_of k (calls w) +
               if TTLCache.contains (clock w) tid (cache w) then 0
               else if String.eqb tid k then 1 else 0).
    { intros k. rewrite Hl1, lookups_of_app.
      destruct (TTLCache.contains (clock w) tid (cache w)); [reflexivity|].
      now rewrite lookups_of_one. }
    refine (conj Hp (conj _ (conj _ (conj _ (conj _ (conj _ (conj _ _))))))).
    + congruence.
    + lia.
    + auto.
    + intros k Hk. rewrite Hout by (intros Hin; apply Hk; now right).
      rewrite Hstep.
      destruct (TTLCache.contains (clock w) tid (cache w)); [lia|].
      destruct (String.eqb_spec tid k) as [->|_]; [|lia].
      exfalso. apply Hk. now left.
    + intros k Hk Hd. apply Hdout; [intros Hin; apply Hk; now right|].
      apply Hd1; [|exact Hd]. intros ->. apply Hk. now left.
    + intros Hnd k. inversion Hnd as [|? ? Htid Hids]; subst.
      specialize (Hstep k).
      destruct (String.eqb_spec tid k) as [->|Hne].
      * rewrite Hout by exact Htid.
        destruct (TTLCache.contains (clock w) k (cache w)); lia.
      * specialize (Hle Hids k).
        destruct (TTLCache.contains (clock w) tid (cache w)); lia.
    + intros Hnd k Hin Hd. inversion Hnd as [|? ? Htid Hids]; subst.
      specialize (Hstep k).
      destruct (String.eqb_spec tid k) as [->|Hne].
      * rewrite Hout by exact Htid.
        now rewrite (dead_contains _ _ _ Hd) in Hstep.
      * destruct Hin as [->|Hin]; [congruence|].
        rewrite (Heq Hids k Hin).
        -- destruct (TTLCache.contains (clock w) tid (cache w)); lia.
        -- apply Hd1; [congruence|exact Hd].
Qed.

(** The loop that builds the list reads names and moves entries in the
    order of use: no name changes on the way. *)
Lemma summarise_loop (task_run_id : string) (data : list RawRun) :
  forall (acc : list Summary) (w : World) (c0 : TTLCache.t),
    (forall k, TTLCache.peek (clock w) k (cache w)
               = TTLCache.peek (clock w) k c0) ->
    exists w',
      for_append data (summarise task_run_id) acc w
      = (Return (acc ++ spec_children c0 (clock w) task_run_id data)%list, w') /\
      clock w' = clock w /\ calls w' = calls w /\
      api_key_env w' = api_key_env w /\
      (forall k, TTLCache.peek (clock w) k (cache w')
                 = TTLCache.peek (clock w) k c0).
Proof.
  induction data as [|st data IH]; intros acc w c0 Hpeek.
  - exists w. simpl. unfold ret, spec_children. simpl. rewrite app_nil_r. auto.
  - simpl. unfold spec_children. simpl. unfold bind at 1.
    unfold summarise at 1.
    destruct (is_root task_run_id st) eqn:Er; simpl.
    + apply IH. exact Hpeek.
    + unfold bind, cache_get, ret.
      set (tid := match rr_taskId st with Some t => t | None => "" end).
      destruct (TTLCache.get (clock w) tid tid (cache w)) as [v c'] eqn:Eg.
      assert (Hv : v = shown_name c0 (clock w) st).
      { pose proof (CacheFacts.get_value (clock w) tid tid (cache w)) as Hg.
        rewrite Eg in Hg. simpl in Hg. unfold shown_name. fold tid.
        now rewrite <- Hpeek. }
      assert (Hc' : forall k, TTLCache.peek (clock w) k c'
                              = TTLCache.peek (clock w) k c0).
      { intros k. rewrite <- Hpeek.
        pose proof (CacheFacts.peek_after_get (clock w) (clock w) tid k tid
                      (cache w)) as Hg.
        now rewrite Eg in Hg. }
      destruct (IH (acc ++ [summary_of st v])%list (set_cache c' w) c0 Hc')
        as (w' & Hrun & Hclk & Hcalls & Henv & Hp).
      exists w'. simpl in *. split; [|auto].
      etransitivity; [exact Hrun|]. subst v.
      now rewrite <- app_assoc.
Qed.

End Children.

(** ** The aggregation *)

Section Aggregate.
Variable P : Platform.

Lemma fetch_spawned_tasks_no_key (task_run_id : string) (w : World) :
  api_key_env w = None \/ api_key_env w = Some "" ->
  fetch_spawned_tasks P task_run_id w = (Return [], w).
Proof.
  intros H. unfold fetch_spawned_tasks. unfold_monad.
  destruct H as [-> | ->]; reflexivity.
Qed.

Lemma fetch_spawned_tasks_listing_fails (task_run_id key : string) (w : World) :
  api_key_env w = Some key -> PyStr.truthy key = true ->
  fetch_fails (task_runs_reply P task_run_id (clock w)) ->
  fetch_spawned_tasks P task_run_id w
  = (Return [], await_call P (HttpGetTaskRuns task_run_id 100 key) w).
Proof.
  intros Hk Ht Hf. unfold fetch_spawned_tasks. unfold_monad.
  rewrite Hk, Ht. simpl.
  destruct (task_runs_reply P task_run_id (clock w)) as [e|st body];
    simpl in *.
  - now destruct (isinstance e HTTPStatusError).
  - destruct (is_2xx st) eqn:Est; [|reflexivity].
    destruct Hf as [Hf| ->]; [discriminate|reflexivity].
Qed.

Lemma fetch_spawned_tasks_listed (task_run_id key : string) (w : World)
      (st : N) (data : list RawRun) :
  api_key_env w = Some key -> PyStr.truthy key = true ->
  task_runs_reply P task_run_id (clock w) = Response st (Some data) ->
  is_2xx st = true ->
  exists w1 w2,
    prefetch P key (set_iter P (referenced_task_ids task_run_id data))
             (await_call P (HttpGetTaskRuns task_run_id 100 key) w)
    = (Return tt, w1) /\
    fetch_spawned_tasks P task_run_id w
    = (Return (spec_children (cache w1) (clock w1) task_run_id data), w2) /\
    calls w2 = calls w1 /\ clock w2 = clock w1 /\
    api_key_env w2 = api_key_env w.
Proof.
  intros Hk Ht Hr Hst.
  destruct (prefetch_frame P key
              (set_iter P (referenced_task_ids task_run_id data))
              (await_call P (HttpGetTaskRuns task_run_id 100 key) w))
    as (w1 & Hp & He & _).
  destruct (summarise_loop task_run_id data [] w1 (cache w1) (fun _ => eq_refl))
    as (w2 & Hl & Hclk & Hcalls & Henv & _).
  exists w1, w2. split; [exact Hp|].
  split; [|simpl in He; repeat split; congruence].
  unfold fetch_spawned_tasks.
  unfold bind at 1. unfold getenv_api_key. rewrite Hk, Ht. simpl.
  unfold try_except, bind at 1. unfold client_get. rewrite Hr.
  unfold bind at 1. unfold raise_for_status. simpl. rewrite Hst.
  unfold ret at 1. unfold bind at 1. unfold response_json. simpl.
  unfold ret at 1. unfold bind at 1. rewrite Hp.
  unfold bind at 1. rewrite Hl. reflexivity.
Qed.

(** The child listing never raises. *)
Lemma fetch_spawned_tasks_returns (task_run_id : string) (w : World) :
  exists tasks w', fetch_spawned_tasks P task_run_id w = (Return tasks, w').
Proof.
  destruct (api_key_env w) as [key|] eqn:Hk;
    [|rewrite fetch_spawned_tasks_no_key; eauto].
  destruct (PyStr.truthy key) eqn:Ht.
  - destruct (fetch_fails_dec (task_runs_reply P task_run_id (clock w)))
      as [Hf|(st & data & Hr & Hst)].
    + rewrite (fetch_spawned_tasks_listing_fails _ key); eauto.
    + destruct (fetch_spawned_tasks_listed _ key w st data Hk Ht Hr Hst)
        as (w1 & w2 & _ & -> & _). eauto.
  - destruct key; [|discriminate].
    rewrite fetch_spawned_tasks_no_key; eauto.
Qed.

Lemma fetch_task_status_root_fails (task_run_id : string) (w : World) (e : exn) :
  task_run_reply P task_run_id (clock w) = inl e ->
  fetch_task_status P task_run_id w
  = (Raise e, await_call P (SdkGetTaskRun task_run_id) w).
Proof.
  intros H. unfold fetch_task_status, bind, sdk_get_task_run. now rewrite H.
Qed.

Lemma fetch_task_status_root_found (task_run_id : string) (w : World) (tr : TaskRun) :
  task_run_reply P task_run_id (clock w) = inr tr ->
  exists tasks w',
    fetch_spawned_tasks P task_run_id
      (await_call P (SdkGetTaskRun task_run_id) w) = (Return tasks, w') /\
    fetch_task_status P task_run_id w
    = (Return (mkReport (tr_id tr) (tr_status tr) (tr_retries tr) tasks
                        (if String.eqb (tr_status tr) "completed"
                         then Some (tr_results tr) else None)), w').
Proof.
  intros H.
  destruct (fetch_spawned_tasks_returns task_run_id
              (await_call P (SdkGetTaskRun task_run_id) w))
    as (tasks & w' & Hs).
  exists tasks, w'. split; [exact Hs|].
  unfold fetch_task_status, bind, sdk_get_task_run, ret.
  now rewrite H, Hs.
Qed.

(** A returned report comes from a root run that was found. *)
Lemma fetch_task_status_inv (task_run_id : string) (w w' : World) (r : Report) :
  fetch_task_status P task_run_id w = (Return r, w') ->
  exists tr tasks,
    task_run_reply P task_run_id (clock w) = inr tr /\
    fetch_spawned_tasks P task_run_id
      (await_call P (SdkGetTaskRun task_run_id) w) = (Return tasks, w') /\
    r = mkReport (tr_id tr) (tr_status tr) (tr_retries tr) tasks
                 (if String.eqb (tr_status tr) "completed"
                  then Some (tr_results tr) else None).
Proof.
  intros H.
  destruct (task_run_reply P task_run_id (clock w)) as [e|tr] eqn:Er.
  - rewrite (fetch_task_status_root_fails _ _ e Er) in H. discriminate.
  - destruct (fetch_task_status_root_found _ _ tr Er) as (tasks & w1 & Hs & Hf).
    rewrite Hf in H. injection H as <- <-. now exists tr, tasks.
Qed.

End Aggregate.

(** * Properties of the specification *)

Lemma dedup_first_ok (listing : HttpReply (list RawRun)) (task : HttpReply Metadata) :
  set_iter_ok (demo_platform listing task).
Proof.
  intros l. simpl. unfold dedup_first. split; [apply NoDup_nodup|].
  intros x. apply nodup_In.
Qed.

(** ** C3: the name fallback *)

(** C3 (as amended): on a cache miss with a successful fetch,
    [get_task_name] returns the name computed by the chain: the [name]
    field when it is present and not empty; otherwise, when the [slug]
    field holds a ["/"], what follows its last ["/"]; otherwise the
    identifier. So [{name: "Foo"}] gives ["Foo"], [{slug: "org/bar-baz"}]
    gives ["bar-baz"] and [{}] gives the identifier. *)
Theorem get_task_name_fallback_chain (P : Platform) (task_def_id key : string)
        (w : World) (st : N) (data : Metadata) :
  TTLCache.contains (clock w) task_def_id (cache w) = false ->
  task_reply P task_def_id (clock w) = Response st (Some data) ->
  is_2xx st = true ->
  (exists w', get_task_name P task_def_id key w
              = (Return (task_name_of data task_def_id), w')) /\
  (forall n, md_name data = Some n -> n <> "" ->
             task_name_of data task_def_id = n) /\
  (forall s, md_name data = None \/ md_name data = Some "" ->
             md_slug data = Some s ->
             PyStr.contains_char PyStr.slash s = true ->
             task_name_of data task_def_id = PyStr.last_segment PyStr.slash s /\
             (exists front,
                 s = front ++ String PyStr.slash (task_name_of data task_def_id)) /\
             PyStr.contains_char PyStr.slash (task_name_of data task_def_id)
             = false) /\
  (md_name data = None \/ md_name data = Some "" ->
   md_slug data = None \/
   (exists s, md_slug data = Some s /\ PyStr.contains_char PyStr.slash s = false) ->
   task_name_of data task_def_id = task_def_id) /\
  task_name_of (mkMetadata (Some "Foo") None) task_def_id = "Foo" /\
  task_name_of (mkMetadata None (Some "org/bar-baz")) task_def_id = "bar-baz" /\
  task_name_of (mkMetadata None None) task_def_id = task_def_id.
Proof.
  intros Hmiss Hr Hst.
  split; [eexists; now apply (get_task_name_fetched P _ key w st data)|].
  split; [|split; [|split; [|repeat split]]].
  - intros n Hn Hne. unfold task_name_of. rewrite Hn. simpl.
    destruct n; [congruence|reflexivity].
  - intros s Hn Hs Hc.
    assert (E : task_name_of data task_def_id = PyStr.last_segment PyStr.slash s).
    { unfold task_name_of. rewrite Hs, Hc. now destruct Hn as [-> | ->]. }
    rewrite E. split; [reflexivity|].
    split; [now apply last_segment_spec|apply last_segment_no_sep].
  - intros Hn Hs. unfold task_name_of.
    destruct Hs as [-> |(s & -> & Hc)].
    + now destruct Hn as [-> | ->].
    + rewrite Hc. now destruct Hn as [-> | ->].
Qed.

Lemma get_task_name_fallback_chain_witness :
  let P := demo_platform (Failed (mkExn TimeoutException "timed out"))
             (Response 200 (Some (mkMetadata None (Some "org/bar-baz")))) in
  fst (get_task_name P "tsk-1" "rnd_key" demo_world) = Return "bar-baz" /\
  "org/bar-baz" = "org" ++ String PyStr.slash "bar-baz".
Proof.
  intros P.
  destruct (get_task_name_fallback_chain P "tsk-1" "rnd_key" demo_world 200
              (mkMetadata None (Some "org/bar-baz")) eq_refl eq_refl eq_refl)
    as ((w' & Hrun) & _ & Hslug & _).
  split.
  - rewrite Hrun. reflexivity.
  - reflexivity.
Defined.

(** C3 (counterexample): a record with a slug that holds no ["/"] and no
    name resolves to the identifier, not to the slug's last segment. *)
Lemma get_task_name_slug_without_slash :
  let data := mkMetadata None (Some "bar") in
  let P := demo_platform (Failed (mkExn TimeoutException "timed out"))
             (Response 200 (Some data)) in
  fst (get_task_name P "tsk-1" "rnd_key" demo_world) = Return "tsk-1" /\
  spec_task_name data "tsk-1" = "bar" /\
  task_name_of data "tsk-1" <> spec_task_name data "tsk-1".
Proof. repeat split. discriminate. Qed.

(** ** C8 and C9: failures of the metadata fetch *)

(** C8: [get_task_name] never raises; when the fetch of the metadata
    fails (an exception of the transport such as a network error or a
    timeout, a status that is not 2xx, a body that does not decode) it
    returns the identifier itself, and the status request around it
    still returns its report. *)
Theorem get_task_name_never_raises (P : Platform) (task_def_id key : string)
        (w : World) :
  (exists name w', get_task_name P task_def_id key w = (Return name, w')) /\
  (TTLCache.contains (clock w) task_def_id (cache w) = false ->
   fetch_fails (task_reply P task_def_id (clock w)) ->
   get_task_name P task_def_id key w
   = (Return task_def_id, await_call P (HttpGetTask task_def_id key) w)) /\
  (forall task_run_id tr,
      task_run_reply P task_run_id (clock w) = inr tr ->
      exists report w', fetch_task_status P task_run_id w = (Return report, w')).
Proof.
  split; [|split].
  - destruct (get_task_name_frame P task_def_id key w) as (r & w' & H & _).
    eauto.
  - apply get_task_name_degraded.
  - intros task_run_id tr H.
    destruct (fetch_task_status_root_found P task_run_id w tr H)
      as (tasks & w' & _ & Hf).
    eauto.
Qed.

Lemma get_task_name_never_raises_witness :
  let offline := Failed (mkExn TransportError "connection refused") in
  let timeout := Failed (mkExn TimeoutException "timed out") in
  let missing := Response 404 None in
  let listing := Response 200 (Some [demo_child "trn-1" "tsk-1"]) in
  fst (get_task_name (demo_platform listing offline) "tsk-1" "rnd_key" demo_world)
  = Return "tsk-1" /\
  fst (get_task_name (demo_platform listing timeout) "tsk-1" "rnd_key" demo_world)
  = Return "tsk-1" /\
  fst (get_task_name (demo_platform listing missing) "tsk-1" "rnd_key" demo_world)
  = Return "tsk-1" /\
  exists report w',
    fetch_task_status (demo_platform listing missing) "trn-root" demo_world
    = (Return report, w').
Proof.
  intros offline timeout missing listing.
  split; [|split; [|split]].
  - destruct (get_task_name_never_raises (demo_platform listing offline)
                "tsk-1" "rnd_key" demo_world) as (_ & H & _).
    rewrite H; [reflexivity|reflexivity|exact I].
  - destruct (get_task_name_never_raises (demo_platform listing timeout)
                "tsk-1" "rnd_key" demo_world) as (_ & H & _).
    rewrite H; [reflexivity|reflexivity|exact I].
  - destruct (get_task_name_never_raises (demo_platform listing missing)
                "tsk-1" "rnd_key" demo_world) as (_ & H & _).
    rewrite H; [reflexivity|reflexivity|now left].
  - destruct (get_task_name_never_raises (demo_platform listing missing)
                "tsk-1" "rnd_key" demo_world) as (_ & _ & H).
    apply (H "trn-root" (mkTaskRun "trn-root" "completed" 2 "{}")).
    reflexivity.
Defined.

(** C9: when the fetch of the metadata fails, [get_task_name] leaves the
    cache as it was: the fallback name is not stored, and the next
    resolution of the same identifier asks the platform again. *)
Theorem get_task_name_failure_not_cached (P : Platform)
        (task_def_id key : string) (w : World) :
  TTLCache.contains (clock w) task_def_id (cache w) = false ->
  fetch_fails (task_reply P task_def_id (clock w)) ->
  exists w',
    get_task_name P task_def_id key w = (Return task_def_id, w') /\
    cache w' = cache w /\
    TTLCache.contains (clock w') task_def_id (cache w') = false /\
    calls w' = (calls w ++ [HttpGetTask task_def_id key])%list /\
    exists name w'',
      get_task_name P task_def_id key w' = (Return name, w'') /\
      calls w'' = (calls w ++ [HttpGetTask task_def_id key;
                               HttpGetTask task_def_id key])%list.
Proof.
  intros Hmiss Hf.
  exists (await_call P (HttpGetTask task_def_id key) w).
  assert (Hmiss' : TTLCache.contains
                     (clock (await_call P (HttpGetTask task_def_id key) w))
                     task_def_id (cache w) = false).
  { eapply contains_later; [|exact Hmiss]. simpl. lia. }
  split; [now apply get_task_name_degraded|].
  split; [reflexivity|]. split; [exact Hmiss'|]. split; [reflexivity|].
  destruct (get_task_name_frame P task_def_id key
              (await_call P (HttpGetTask task_def_id key) w))
    as (name & w'' & Hrun & _ & _ & Hcalls & _).
  exists name, w''. split; [exact Hrun|].
  rewrite Hcalls. simpl cache. rewrite Hmiss'. simpl.
  now rewrite <- app_assoc.
Qed.

Lemma get_task_name_failure_not_cached_witness :
  let P := demo_platform (Failed (mkExn TimeoutException "timed out"))
             (Response 503 None) in
  exists w',
    get_task_name P "tsk-1" "rnd_key" demo_world = (Return "tsk-1", w') /\
    cache w' = TTLCache.empty /\
    lookups_of "tsk-1" (calls (snd (get_task_name P "tsk-1" "rnd_key" w'))) = 2.
Proof.
  intros P.
  destruct (get_task_name_failure_not_cached P "tsk-1" "rnd_key" demo_world
              eq_refl (or_introl eq_refl))
    as (w' & Hrun & Hcache & _ & _ & name & w'' & Hrun' & Hcalls).
  exists w'. split; [exact Hrun|]. split; [exact Hcache|].
  rewrite Hrun'. simpl. rewrite Hcalls. reflexivity.
Defined.

(** ** C1: which failures the aggregation passes on *)

(** C1: a failure of the root-run fetch leaves [fetch_task_status] with
    that exception, after the root fetch alone (no listing call is
    made); a failure of the child listing is swallowed: the report
    carries the root run's id, status and retries and an empty list. *)
Theorem fetch_task_status_failure_policy (P : Platform) (task_run_id : string)
        (w : World) :
  (forall e, task_run_reply P task_run_id (clock w) = inl e ->
     exists w',
       fetch_task_status P task_run_id w = (Raise e, w') /\
       calls w' = (calls w ++ [SdkGetTaskRun task_run_id])%list /\
       filter is_listing (calls w') = filter is_listing (calls w)) /\
  (forall tr key,
     task_run_reply P task_run_id (clock w) = inr tr ->
     api_key_env w = Some key -> PyStr.truthy key = true ->
     fetch_fails (task_runs_reply P task_run_id
                    (clock (await_call P (SdkGetTaskRun task_run_id) w))) ->
     exists report w',
       fetch_task_status P task_run_id w = (Return report, w') /\
       rp_id report = tr_id tr /\
       rp_status report = tr_status tr /\
       rp_retries report = tr_retries tr /\
       rp_tasks report = []).
Proof.
  split.
  - intros e He. exists (await_call P (SdkGetTaskRun task_run_id) w).
    split; [now apply fetch_task_status_root_fails|].
    split; [reflexivity|]. simpl. rewrite filter_app. simpl.
    now rewrite app_nil_r.
  - intros tr key Hr Hk Ht Hf.
    destruct (fetch_task_status_root_found P task_run_id w tr Hr)
      as (tasks & w' & Hs & Hrun).
    rewrite (fetch_spawned_tasks_listing_fails P task_run_id key) in Hs;
      [|exact Hk|exact Ht|exact Hf].
    injection Hs as <- <-.
    eexists _, _. split; [exact Hrun|]. simpl. auto.
Qed.

Lemma fetch_task_status_failure_policy_witness :
  let P := demo_platform (Response 500 None) (Response 404 None) in
  fst (fetch_task_status P "trn-gone" demo_world)
  = Raise (mkExn ClientError "task run not found") /\
  calls (snd (fetch_task_status P "trn-gone" demo_world))
  = [SdkGetTaskRun "trn-gone"] /\
  exists report w',
    fetch_task_status P "trn-root" demo_world = (Return report, w') /\
    rp_id report = "trn-root" /\ rp_status report = "completed" /\
    rp_retries report = 2%N /\ rp_tasks report = [].
Proof.
  intros P.
  destruct (fetch_task_status_failure_policy P "trn-gone" demo_world)
    as [Hroot _].
  destruct (Hroot (mkExn ClientError "task run not found") eq_refl)
    as (w' & Hrun & Hcalls & _).
  destruct (fetch_task_status_failure_policy P "trn-root" demo_world)
    as [_ Hlist].
  destruct (Hlist (mkTaskRun "trn-root" "completed" 2 "{}") "rnd_key"
              eq_refl eq_refl eq_refl (or_introl eq_refl))
    as (report & w'' & Hrun' & Hrep).
  split; [now rewrite Hrun|]. split; [now rewrite Hrun|].
  exists report, w''. split; [exact Hrun'|exact Hrep].
Defined.

(** ** C6: the results field *)

(** C6: a report returned by [fetch_task_status] has the field
    ["results"] exactly when the root run's status is the string
    ["completed"]; the field then holds the run's results. *)
Theorem results_iff_completed (P : Platform) (task_run_id : string)
        (w w' : World) (report : Report) :
  fetch_task_status P task_run_id w = (Return report, w') ->
  (rp_results report <> None <-> rp_status report = "completed") /\
  exists tr,
    task_run_reply P task_run_id (clock w) = inr tr /\
    rp_status report = tr_status tr /\
    (rp_status report = "completed" ->
     rp_results report = Some (tr_results tr)).
Proof.
  intros H.
  destruct (fetch_task_status_inv P task_run_id w w' report H)
    as (tr & tasks & Hr & _ & ->).
  simpl. split.
  - destruct (String.eqb_spec (tr_status tr) "completed") as [E|E].
    + split; [intros _; exact E|discriminate].
    + split; [congruence|intros E'; contradiction].
  - exists tr. split; [exact Hr|]. split; [reflexivity|].
    intros E. now rewrite E.
Qed.

Lemma results_iff_completed_witness :
  let P := demo_platform (Response 200 (Some [])) (Response 404 None) in
  rp_results (mkReport "trn-root" "completed" 2 [] (Some "{}")) <> None <->
  rp_status (mkReport "trn-root" "completed" 2 [] (Some "{}")) = "completed".
Proof.
  intros P.
  apply (results_iff_completed P "trn-root" demo_world
           (snd (fetch_task_status P "trn-root" demo_world))
           (mkReport "trn-root" "completed" 2 [] (Some "{}"))).
  reflexivity.
Defined.

(** ** C10: no API key *)

(** C10: with [RENDER_API_KEY] unset, [fetch_spawned_tasks] returns the
    empty list and leaves the world as it was (no call is made), so a
    report of [fetch_task_status] has an empty list of tasks and the
    only call is the fetch of the root run. *)
Theorem fetch_spawned_tasks_without_key (P : Platform) (task_run_id : string)
        (w : World) :
  api_key_env w = None ->
  fetch_spawned_tasks P task_run_id w = (Return [], w) /\
  (forall report w',
      fetch_task_status P task_run_id w = (Return report, w') ->
      rp_tasks report = [] /\
      calls w' = (calls w ++ [SdkGetTaskRun task_run_id])%list) /\
  (forall tr, task_run_reply P task_run_id (clock w) = inr tr ->
      exists report w',
        fetch_task_status P task_run_id w = (Return report, w')).
Proof.
  intros Hk. split; [|split].
  - apply fetch_spawned_tasks_no_key. now left.
  - intros report w' H.
    destruct (fetch_task_status_inv P task_run_id w w' report H)
      as (tr & tasks & _ & Hs & ->).
    rewrite fetch_spawned_tasks_no_key in Hs by (now left).
    injection Hs as <- <-. split; reflexivity.
  - intros tr Hr.
    destruct (fetch_task_status_root_found P task_run_id w tr Hr)
      as (tasks & w' & _ & Hf).
    eauto.
Qed.

Lemma fetch_spawned_tasks_without_key_witness :
  let P := demo_platform
             (Response 200 (Some [demo_child "trn-1" "tsk-1";
                                  demo_child "trn-2" "tsk-2"]))
             (Response 200 (Some (mkMetadata (Some "Crawl") None))) in
  let w := mkWorld TTLCache.empty 0 None [] in
  fetch_spawned_tasks P "trn-root" w = (Return [], w) /\
  rp_tasks (mkReport "trn-root" "completed" 2 [] (Some "{}")) = [] /\
  calls (snd (fetch_task_status P "trn-root" w)) = [SdkGetTaskRun "trn-root"].
Proof.
  intros P w.
  destruct (fetch_spawned_tasks_without_key P "trn-root" w eq_refl)
    as (Hs & Hrep & _).
  split; [exact Hs|].
  exact (Hrep (mkReport "trn-root" "completed" 2 [] (Some "{}"))
              (snd (fetch_task_status P "trn-root" w)) eq_refl).
Defined.

(** ** C5: the child list *)

(** C5: when the listing succeeds, the list [fetch_spawned_tasks]
    returns is the platform's list without the entries that carry the
    root's id, in the platform's order, each entry mapped to its summary
    (id, status, the name the cache holds for its task definition after
    the pre-fetch or else the identifier, start and end times, first
    input or none); the report carries that list. *)
Theorem fetch_spawned_tasks_child_list (P : Platform) (task_run_id key : string)
        (w : World) (st : N) (data : list RawRun) :
  api_key_env w = Some key -> PyStr.truthy key = true ->
  task_runs_reply P task_run_id (clock w) = Response st (Some data) ->
  is_2xx st = true ->
  exists w1 w2,
    prefetch P key (set_iter P (referenced_task_ids task_run_id data))
             (await_call P (HttpGetTaskRuns task_run_id 100 key) w)
    = (Return tt, w1) /\
    fetch_spawned_tasks P task_run_id w
    = (Return (spec_children (cache w1) (clock w1) task_run_id data), w2) /\
    (forall w0 tr,
        task_run_reply P task_run_id (clock w0) = inr tr ->
        w = await_call P (SdkGetTaskRun task_run_id) w0 ->
        exists report,
          fetch_task_status P task_run_id w0 = (Return report, w2) /\
          rp_tasks report
          = spec_children (cache w1) (clock w1) task_run_id data).
Proof.
  intros Hk Ht Hr Hst.
  destruct (fetch_spawned_tasks_listed P task_run_id key w st data Hk Ht Hr Hst)
    as (w1 & w2 & Hp & Hs & _).
  exists w1, w2. split; [exact Hp|]. split; [exact Hs|].
  intros w0 tr Hroot ->.
  destruct (fetch_task_status_root_found P task_run_id w0 tr Hroot)
    as (tasks & w' & Hs' & Hf).
  rewrite Hs in Hs'. injection Hs' as <- <-.
  eexists. split; [exact Hf|reflexivity].
Qed.

Lemma fetch_spawned_tasks_child_list_witness :
  let data := [demo_child "trn-1" "tsk-crawl";
               mkRawRun (Some "trn-root") (Some "completed") (Some "tsk-audit")
                        None None None;
               mkRawRun (Some "trn-2") (Some "failed") (Some "tsk-crawl")
                        (Some "2025-01-01T00:00:05Z")
                        (Some "2025-01-01T00:00:09Z") (Some [])] in
  let P := demo_platform (Response 200 (Some data))
             (Response 200 (Some (mkMetadata None (Some "org/crawl-page")))) in
  fst (fetch_spawned_tasks P "trn-root" demo_world)
  = Return [mkSummary (Some "trn-1") (Some "running") "crawl-page"
                      (Some "2025-01-01T00:00:00Z") None
                      (Some "https://example.com");
            mkSummary (Some "trn-2") (Some "failed") "crawl-page"
                      (Some "2025-01-01T00:00:05Z")
                      (Some "2025-01-01T00:00:09Z") None].
Proof.
  intros data P.
  destruct (fetch_spawned_tasks_child_list P "trn-root" "rnd_key" demo_world
              200 data eq_refl eq_refl eq_refl eq_refl)
    as (w1 & w2 & Hp & Hs & _).
  rewrite Hs. simpl fst.
  vm_compute in Hp. injection Hp as <-.
  reflexivity.
Defined.

(** ** Sets of one element and listing calls *)


Lemma lookups_of_listing (k root key : string) (limit : N) (log : list Call) :
  lookups_of k (log ++ [HttpGetTaskRuns root limit key])%list = lookups_of k log.
Proof. rewrite lookups_of_app. unfold lookups_of at 2. simpl. lia. Qed.

(** * Further properties of the code *)

(** ** Names from slugs *)

Lemma contains_char_app (c : ascii) (front tail : string) :
  PyStr.contains_char c (front ++ String c tail) = true.
Proof.
  induction front as [|a front IH]; simpl.
  - now rewrite Ascii.eqb_refl.
  - rewrite IH. apply orb_true_r.
Qed.

Lemma last_segment_app (c : ascii) (front tail : string) :
  PyStr.last_segment c (front ++ String c tail) = PyStr.last_segment c tail.
Proof.
  induction front as [|a front IH]; simpl.
  - rewrite last_segment_cons. now rewrite Ascii.eqb_refl.
  - rewrite last_segment_cons, contains_char_app, orb_true_r. exact IH.
Qed.

(** X1: when the metadata has no name (or an empty one) and its slug is
    [front ++ "/" ++ tail] with no ["/"] in [tail], the name computed by
    [get_task_name] is [tail], whatever [front] holds; a slug that ends
    in ["/"] therefore gives the empty name. *)
Theorem task_name_of_slug_tail (name_field : option string)
        (front tail task_def_id : string) :
  name_field = None \/ name_field = Some "" ->
  PyStr.contains_char PyStr.slash tail = false ->
  task_name_of (mkMetadata name_field (Some (front ++ String PyStr.slash tail)))
               task_def_id = tail /\
  task_name_of (mkMetadata name_field (Some (front ++ String PyStr.slash "")))
               task_def_id = "".
Proof.
  intros Hn Ht. unfold task_name_of. simpl.
  rewrite !contains_char_app, !last_segment_app.
  assert (Hf : negb (PyStr.truthy_opt name_field) = true)
    by (destruct Hn as [-> | ->]; reflexivity).
  rewrite Hf. simpl. split; [|reflexivity].
  unfold PyStr.last_segment. now rewrite (split_without_sep _ _ Ht).
Qed.

Lemma task_name_of_slug_tail_witness :
  task_name_of (mkMetadata (Some "") (Some ("acme/seo" ++ String PyStr.slash "crawl")))
               "tsk-1" = "crawl" /\
  task_name_of (mkMetadata (Some "") (Some ("acme/seo" ++ String PyStr.slash "")))
               "tsk-1" = "".
Proof.
  apply (task_name_of_slug_tail (Some "") "acme/seo" "crawl" "tsk-1").
  - right. reflexivity.
  - reflexivity.
Defined.

(** ** The SDK client *)

Lemma lower_char_t (c : ascii) :
  lower_char c = "t"%char <-> c = "t"%char \/ c = "T"%char.
Proof.
  split.
  - destruct c as [[] [] [] [] [] [] [] []]; vm_compute; intros H;
      try discriminate H; auto.
  - intros [-> | ->]; reflexivity.
Qed.

Lemma lower_char_r (c : ascii) :
  lower_char c = "r"%char <-> c = "r"%char \/ c = "R"%char.
Proof.
  split.
  - destruct c as [[] [] [] [] [] [] [] []]; vm_compute; intros H;
      try discriminate H; auto.
  - intros [-> | ->]; reflexivity.
Qed.

Lemma lower_char_u (c : ascii) :
  lower_char c = "u"%char <-> c = "u"%char \/ c = "U"%char.
Proof.
  split.
  - destruct c as [[] [] [] [] [] [] [] []]; vm_compute; intros H;
      try discriminate H; auto.
  - intros [-> | ->]; reflexivity.
Qed.

Lemma lower_char_e (c : ascii) :
  lower_char c = "e"%char <-> c = "e"%char \/ c = "E"%char.
Proof.
  split.
  - destruct c as [[] [] [] [] [] [] [] []]; vm_compute; intros H;
      try discriminate H; auto.
  - intros [-> | ->]; reflexivity.
Qed.

Lemma str_lower_true (s : string) :
  str_lower s = "true" <->
  exists a b c d,
    s = String a (String b (String c (String d ""))) /\
    (a = "t" \/ a = "T")%char /\ (b = "r" \/ b = "R")%char /\
    (c = "u" \/ c = "U")%char /\ (d = "e" \/ d = "E")%char.
Proof.
  split.
  - destruct s as [|a [|b [|c [|d [|x s]]]]]; simpl; try discriminate.
    intros H. injection H as Ha Hb Hc Hd.
    exists a, b, c, d. split; [reflexivity|].
    rewrite <- lower_char_t, <- lower_char_r, <- lower_char_u, <- lower_char_e.
    auto.
  - intros (a & b & c & d & -> & Ha & Hb & Hc & Hd). simpl.
    apply lower_char_t in Ha. apply lower_char_r in Hb.
    apply lower_char_u in Hc. apply lower_char_e in Hd.
    now rewrite Ha, Hb, Hc, Hd.
Qed.

(** X2: [get_render_client] builds the client once: from then on every
    call returns that client and leaves the global alone, whatever
    [RENDER_USE_LOCAL_DEV] has become. The first call picks the local
    development client exactly when the variable spells ["true"] in any
    mix of upper and lower case, with nothing around it; otherwise
    (unset included) it picks the default client. *)
Theorem get_render_client_once (flag flag' : option string)
        (_render : option Render) :
  get_render_client flag' (snd (get_render_client flag _render))
  = get_render_client flag _render /\
  (fst (get_render_client flag None) = local_dev_client <->
   exists a b c d,
     flag = Some (String a (String b (String c (String d "")))) /\
     (a = "t" \/ a = "T")%char /\ (b = "r" \/ b = "R")%char /\
     (c = "u" \/ c = "U")%char /\ (d = "e" \/ d = "E")%char) /\
  (fst (get_render_client flag None) = local_dev_client \/
   fst (get_render_client flag None) = default_client).
Proof.
  split; [|split].
  - destruct _render as [r|]; reflexivity.
  - unfold get_render_client. simpl.
    destruct (String.eqb_spec
                (str_lower (match flag with Some v => v | None => "" end))
                "true") as [E|E].
    + split; [intros _|reflexivity].
      destruct flag as [v|]; [|discriminate E].
      apply str_lower_true in E.
      destruct E as (a & b & c & d & -> & H). now exists a, b, c, d.
    + split; [discriminate|].
      intros (a & b & c & d & -> & H). exfalso. apply E.
      apply str_lower_true. now exists a, b, c, d.
  - unfold get_render_client. simpl.
    destruct (String.eqb _ "true"); auto.
Qed.

(** ** Status codes of the error mapper *)

(** X3: [to_sdk_error_response] answers 400 exactly for the instances of
    [ClientError] and 500 for everything else (no other status, so no
    404 for a run that is not found), and the exception's own text is
    always the end of the message. *)
Theorem to_sdk_error_response_codes (e : exn) :
  (fst (to_sdk_error_response e) = 400%N <-> isinstance e ClientError = true) /\
  (fst (to_sdk_error_response e) = 500%N <-> isinstance e ClientError = false) /\
  exists head, snd (to_sdk_error_response e) = head ++ exn_str e.
Proof.
  unfold to_sdk_error_response.
  destruct (isinstance e ClientError); [|destruct (isinstance e RenderError)];
    simpl; (split; [split; (discriminate || reflexivity || auto)|]);
    (split; [split; (discriminate || reflexivity || auto)|]).
  - now exists "Client error: ".
  - now exists "Render API error: ".
  - now exists "".
Qed.

(** ** A stored name, read back *)

Lemma hit_after_store (P P' : Platform) (k key : string) (w : World)
      (st : N) (data : Metadata) (t : N) :
  TTLCache.contains (clock w) k (cache w) = false ->
  task_reply P k (clock w) = Response st (Some data) ->
  is_2xx st = true ->
  (t < clock (snd (get_task_name P k key w)) + 3600)%N ->
  exists w2,
    get_task_name P' k key (at_clock t (snd (get_task_name P k key w)))
    = (Return (task_name_of data k), w2) /\
    calls w2 = (calls w ++ [HttpGetTask k key])%list /\
    clock w2 = t /\
    (forall t' k', TTLCache.peek t' k' (cache w2)
                   = TTLCache.peek t' k'
                       (cache (snd (get_task_name P k key w)))).
Proof.
  intros Hmiss Hr Hst. rewrite (get_task_name_fetched P k key w st data Hmiss Hr Hst).
  cbv zeta. simpl snd. intros Ht.
  set (w1 := set_cache _ _) in *.
  assert (Hpeek : TTLCache.peek t k (cache (at_clock t w1))
                  = Some (task_name_of data k)).
  { subst w1. simpl. rewrite CacheFacts.peek_setitem_same.
    simpl in Ht. apply N.ltb_lt in Ht. unfold TTLCache.ttl. now rewrite Ht. }
  assert (Hc : TTLCache.contains (clock (at_clock t w1)) k
                 (cache (at_clock t w1)) = true).
  { rewrite CacheFacts.peek_contains. simpl clock. now rewrite Hpeek. }
  destruct (get_task_name_hit P' k key (at_clock t w1) Hc)
    as (v & c' & Hg & Hp & Hrun).
  simpl clock in Hp. rewrite Hpeek in Hp. injection Hp as <-.
  exists (set_cache c' (at_clock t w1)). split; [exact Hrun|].
  split; [reflexivity|]. split; [reflexivity|].
  intros t' k'. simpl. eapply CacheFacts.peek_after_getitem. exact Hg.
Qed.



(** X5: the lifetime of a stored name is counted from the store, not
    from the last read: after a fetch and a later hit, a call at a clock
    reading 3600 or more after the store asks the platform again,
    returns the name the platform gives then, and stores it. *)
Theorem get_task_name_refetch_after_ttl (P P' P'' : Platform) (k key : string)
        (w : World) (st st'' : N) (data data'' : Metadata) (t t' : N) :
  TTLCache.contains (clock w) k (cache w) = false ->
  task_reply P k (clock w) = Response st (Some data) ->
  is_2xx st = true ->
  (t < clock (snd (get_task_name P k key w)) + 3600)%N ->
  (clock (snd (get_task_name P k key w)) + 3600 <= t')%N ->
  task_reply P'' k t' = Response st'' (Some data'') ->
  is_2xx st'' = true ->
  exists w3,
    get_task_name P'' k key
      (at_clock t'
         (snd (get_task_name P' k key
                 (at_clock t (snd (get_task_name P k key w))))))
    = (Return (task_name_of data'' k), w3) /\
    calls w3 = (calls w ++ [HttpGetTask k key; HttpGetTask k key])%list /\
    TTLCache.peek (clock w3) k (cache w3) = Some (task_name_of data'' k).
Proof.
  intros Hmiss Hr Hst Ht Ht' Hr'' Hst''.
  destruct (hit_after_store P P' k key w st data t Hmiss Hr Hst Ht)
    as (w2 & Hrun & Hcalls & Hclk & Hpeek).
  rewrite Hrun. simpl snd.
  assert (Hold : TTLCache.contains (clock (at_clock t' w2)) k
                   (cache (at_clock t' w2)) = false).
  { rewrite CacheFacts.peek_contains. simpl. rewrite Hpeek.
    rewrite (get_task_name_fetched P k key w st data Hmiss Hr Hst) in Ht' |- *.
    simpl in Ht' |- *. rewrite CacheFacts.peek_setitem_same.
    assert (E : (t' <? clock w + latency P (HttpGetTask k key) (clock w)
                       + TTLCache.ttl)%N = false).
    { apply N.ltb_ge. unfold TTLCache.ttl. exact Ht'. }
    now rewrite E. }
  rewrite (get_task_name_fetched P'' k key (at_clock t' w2) st'' data''
             Hold Hr'' Hst'').
  eexists. split; [reflexivity|]. simpl. rewrite Hcalls.
  split; [now rewrite <- app_assoc|].
  rewrite CacheFacts.peek_setitem_same.
  assert (E : (t' + latency P'' (HttpGetTask k key) t'
               <? t' + latency P'' (HttpGetTask k key) t' + TTLCache.ttl)%N
              = true).
  { apply N.ltb_lt. unfold TTLCache.ttl. lia. }
  now rewrite E.
Qed.

Lemma get_task_name_refetch_after_ttl_witness :
  let P := demo_platform (Response 200 (Some []))
             (Response 200 (Some (mkMetadata (Some "Crawl page") None))) in
  let P'' := demo_platform (Response 200 (Some []))
               (Response 200 (Some (mkMetadata (Some "Renamed") None))) in
  exists w3,
    get_task_name P'' "tsk-1" "rnd_key"
      (at_clock 3601
         (snd (get_task_name P "tsk-1" "rnd_key"
                 (at_clock 3600
                    (snd (get_task_name P "tsk-1" "rnd_key" demo_world))))))
    = (Return "Renamed", w3) /\
    calls w3 = [HttpGetTask "tsk-1" "rnd_key"; HttpGetTask "tsk-1" "rnd_key"].
Proof.
  intros P P''.
  destruct (get_task_name_refetch_after_ttl P P P'' "tsk-1" "rnd_key"
              demo_world 200 200 (mkMetadata (Some "Crawl page") None)
              (mkMetadata (Some "Renamed") None) 3600 3601
              eq_refl eq_refl eq_refl eq_refl)
    as (w3 & Hrun & Hcalls & _).
  - vm_compute. discriminate.
  - reflexivity.
  - reflexivity.
  - exists w3. split; [exact Hrun|exact Hcalls].
Defined.

(** ** What the aggregation keeps and what it calls *)

Lemma get_wf (now : N) (k d : string) (c : TTLCache.t) :
  TTLCache.wf c -> TTLCache.wf (snd (TTLCache.get now k d c)).
Proof.
  intros H. unfold TTLCache.get.
  destruct (TTLCache.contains now k c); [|exact H].
  destruct (TTLCache.getitem now k c) as [[v c']|] eqn:E; [|exact H].
  simpl. eapply CacheFacts.getitem_wf; eauto.
Qed.

Lemma summarise_loop_wf (task_run_id : string) (data : list RawRun) :
  forall (acc : list Summary) (w : World),
    TTLCache.wf (cache w) ->
    TTLCache.wf (cache (snd (for_append data (summarise task_run_id) acc w))).
Proof.
  induction data as [|st data IH]; intros acc w H; [exact H|].
  simpl. unfold bind at 1. unfold summarise at 1.
  destruct (is_root task_run_id st).
  - unfold ret at 1. now apply IH.
  - unfold bind, cache_get, ret.
    pose proof (get_wf (clock w)
                  (match rr_taskId st with Some t => t | None => "" end)
                  (match rr_taskId st with Some t => t | None => "" end)
                  (cache w) H) as Hg.
    destruct (TTLCache.get _ _ _ (cache w)) as [v c'].
    apply IH. exact Hg.
Qed.

(** The world a successful listing ends in. *)
Lemma fetch_spawned_tasks_listed_world (P : Platform) (task_run_id key : string)
      (w : World) (st : N) (data : list RawRun) :
  api_key_env w = Some key -> PyStr.truthy key = true ->
  task_runs_reply P task_run_id (clock w) = Response st (Some data) ->
  is_2xx st = true ->
  exists w1,
    prefetch P key (set_iter P (referenced_task_ids task_run_id data))
             (await_call P (HttpGetTaskRuns task_run_id 100 key) w)
    = (Return tt, w1) /\
    snd (fetch_spawned_tasks P task_run_id w)
    = snd (for_append data (summarise task_run_id) [] w1).
Proof.
  intros Hk Ht Hr Hst.
  destruct (prefetch_frame P key
              (set_iter P (referenced_task_ids task_run_id data))
              (await_call P (HttpGetTaskRuns task_run_id 100 key) w))
    as (w1 & Hp & _).
  destruct (summarise_loop task_run_id data [] w1 (cache w1) (fun _ => eq_refl))
    as (w2 & Hl & _).
  exists w1. split; [exact Hp|].
  rewrite Hl.
  assert (E : fetch_spawned_tasks P task_run_id w
              = (Return ([] ++ spec_children (cache w1) (clock w1)
                                 task_run_id data)%list, w2));
    [|now rewrite E].
  unfold fetch_spawned_tasks.
  unfold bind at 1. unfold getenv_api_key. rewrite Hk, Ht. simpl.
  unfold try_except, bind at 1. unfold client_get. rewrite Hr.
  unfold bind at 1. unfold raise_for_status. simpl. rewrite Hst.
  unfold ret at 1. unfold bind at 1. unfold response_json. simpl.
  unfold ret at 1. unfold bind at 1. rewrite Hp.
  unfold bind at 1. rewrite Hl. reflexivity.
Qed.

Section Invariants.
Variable P : Platform.

Lemma fetch_spawned_tasks_wf (task_run_id : string) (w : World) :
  TTLCache.wf (cache w) ->
  TTLCache.wf (cache (snd (fetch_spawned_tasks P task_run_id w))).
Proof.
  intros Hwf.
  destruct (api_key_env w) as [key|] eqn:Hk;
    [|now rewrite fetch_spawned_tasks_no_key by (now left)].
  destruct (PyStr.truthy key) eqn:Ht;
    [|destruct key; [|discriminate];
      now rewrite fetch_spawned_tasks_no_key by (now right)].
  destruct (fetch_fails_dec (task_runs_reply P task_run_id (clock w)))
    as [Hf|(st & data & Hr & Hst)].
  - now rewrite (fetch_spawned_tasks_listing_fails P task_run_id key w Hk Ht Hf).
  - destruct (fetch_spawned_tasks_listed_world P task_run_id key w st data
                Hk Ht Hr Hst) as (w1 & Hp & ->).
    apply summarise_loop_wf.
    destruct (prefetch_frame P key
                (set_iter P (referenced_task_ids task_run_id data))
                (await_call P (HttpGetTaskRuns task_run_id 100 key) w))
      as (w1' & Hp' & _ & _ & Hwf' & _).
    rewrite Hp in Hp'. injection Hp' as <-. now apply Hwf'.
Qed.

Lemma fetch_task_status_world (task_run_id : string) (w : World) :
  snd (fetch_task_status P task_run_id w)
  = match task_run_reply P task_run_id (clock w) with
    | inl _ => await_call P (SdkGetTaskRun task_run_id) w
    | inr _ => snd (fetch_spawned_tasks P task_run_id
                      (await_call P (SdkGetTaskRun task_run_id) w))
    end.
Proof.
  destruct (task_run_reply P task_run_id (clock w)) as [e|tr] eqn:Er.
  - now rewrite (fetch_task_status_root_fails P task_run_id w e Er).
  - destruct (fetch_task_status_root_found P task_run_id w tr Er)
      as (tasks & w' & Hs & ->).
    now rewrite Hs.
Qed.

End Invariants.

(** X6: the code keeps the cache well formed: from a cache with distinct
    keys and at most 1000 entries, [get_task_name],
    [fetch_spawned_tasks] and [fetch_task_status] all end, whatever the
    platform answers, in a cache with distinct keys and at most 1000
    entries. *)
Theorem aggregation_keeps_cache_bounded (P : Platform)
        (task_run_id task_def_id key : string) (w : World) :
  NoDup (TTLCache.keys (cache w)) -> List.length (cache w) <= 1000 ->
  (NoDup (TTLCache.keys (cache (snd (get_task_name P task_def_id key w)))) /\
   List.length (cache (snd (get_task_name P task_def_id key w))) <= 1000) /\
  (NoDup (TTLCache.keys (cache (snd (fetch_spawned_tasks P task_run_id w)))) /\
   List.length (cache (snd (fetch_spawned_tasks P task_run_id w))) <= 1000) /\
  (NoDup (TTLCache.keys (cache (snd (fetch_task_status P task_run_id w)))) /\
   List.length (cache (snd (fetch_task_status P task_run_id w))) <= 1000).
Proof.
  intros Hnd Hlen.
  assert (Hwf : TTLCache.wf (cache w)) by (split; assumption).
  split; [|split].
  - destruct (get_task_name_frame P task_def_id key w)
      as (r & w' & -> & _ & _ & _ & H & _).
    exact (H Hwf).
  - exact (fetch_spawned_tasks_wf P task_run_id w Hwf).
  - rewrite fetch_task_status_world.
    destruct (task_run_reply P task_run_id (clock w)); [exact Hwf|].
    exact (fetch_spawned_tasks_wf P task_run_id
             (await_call P (SdkGetTaskRun task_run_id) w) Hwf).
Qed.

Lemma aggregation_keeps_cache_bounded_witness :
  let data := [demo_child "trn-1" "tsk-a"; demo_child "trn-2" "tsk-b"] in
  let P := demo_platform (Response 200 (Some data))
             (Response 200 (Some (mkMetadata (Some "Crawl page") None))) in
  NoDup (TTLCache.keys (cache (snd (fetch_task_status P "trn-root" demo_world))))
  /\ List.length (cache (snd (fetch_task_status P "trn-root" demo_world))) <= 1000.
Proof.
  intros data P.
  destruct (aggregation_keeps_cache_bounded P "trn-root" "tsk-a" "rnd_key"
              demo_world) as (_ & _ & H).
  - constructor.
  - simpl. lia.
  - exact H.
Defined.

(** X7: no list [fetch_spawned_tasks] returns holds an entry with the
    root run's id, whatever the platform listed and whether or not the
    listing succeeded; nor does the task list of any report. *)
Theorem root_never_among_children (P : Platform) (task_run_id : string)
        (w : World) (s : Summary) :
  In s (returned_tasks (fetch_spawned_tasks P task_run_id w)) \/
  (exists report w', fetch_task_status P task_run_id w = (Return report, w')
                     /\ In s (rp_tasks report)) ->
  s_id s <> Some task_run_id.
Proof.
  assert (Hsp : forall w0,
             In s (returned_tasks (fetch_spawned_tasks P task_run_id w0)) ->
             s_id s <> Some task_run_id).
  { intros w0 Hin.
    destruct (api_key_env w0) as [key|] eqn:Hk;
      [|now rewrite fetch_spawned_tasks_no_key in Hin by (now left)].
    destruct (PyStr.truthy key) eqn:Ht;
      [|destruct key; [|discriminate];
        now rewrite fetch_spawned_tasks_no_key in Hin by (now right)].
    destruct (fetch_fails_dec (task_runs_reply P task_run_id (clock w0)))
      as [Hf|(st & data & Hr & Hst)].
    - now rewrite (fetch_spawned_tasks_listing_fails P task_run_id key w0
                     Hk Ht Hf) in Hin.
    - destruct (fetch_spawned_tasks_listed P task_run_id key w0 st data
                  Hk Ht Hr Hst) as (w1 & w2 & _ & Hs & _).
      rewrite Hs in Hin. unfold returned_tasks, spec_children in Hin.
      simpl in Hin. apply in_map_iff in Hin.
      destruct Hin as (raw & <- & Hraw). apply filter_In in Hraw.
      destruct Hraw as [_ Hroot]. simpl. unfold is_root in Hroot.
      destruct (rr_id raw) as [i|]; [|discriminate].
      intros E. injection E as ->. now rewrite String.eqb_refl in Hroot. }
  intros [Hin|(report & w' & Hrun & Hin)]; [now apply (Hsp w)|].
  destruct (fetch_task_status_inv P task_run_id w w' report Hrun)
    as (tr & tasks & _ & Hs & ->).
  apply (Hsp (await_call P (SdkGetTaskRun task_run_id) w)).
  rewrite Hs. exact Hin.
Qed.

Lemma root_never_among_children_witness :
  let data := [mkRawRun (Some "trn-root") (Some "running") (Some "tsk-a")
                        None None None;
               demo_child "trn-1" "tsk-a"] in
  let P := demo_platform (Response 200 (Some data)) (Response 404 None) in
  returned_tasks (fetch_spawned_tasks P "trn-root" demo_world)
  = [summary_of (demo_child "trn-1" "tsk-a") "tsk-a"] /\
  s_id (summary_of (demo_child "trn-1" "tsk-a") "tsk-a") <> Some "trn-root".
Proof.
  intros data P. split; [reflexivity|].
  apply (root_never_among_children P "trn-root" demo_world).
  left. left. reflexivity.
Defined.

Lemma prefetch_calls (P : Platform) (key : string) (ids : list string) :
  forall w,
    exists lookups,
      calls (snd (prefetch P key ids w)) = (calls w ++ lookups)%list /\
      Forall (fun c => exists tid, In tid ids /\ c = HttpGetTask tid key)
             lookups /\
      List.length lookups <= List.length ids.
Proof.
  induction ids as [|tid ids IH]; intros w.
  - exists []. simpl. rewrite app_nil_r. auto.
  - rewrite prefetch_cons.
    destruct (prefetch_turn P tid key w) as (w1 & Ht & _ & _ & Hl & _).
    rewrite Ht. destruct (IH w1) as (lookups & Hc & Hall & Hlen).
    exists ((if TTLCache.contains (clock w) tid (cache w) then []
             else [HttpGetTask tid key]) ++ lookups)%list.
    split; [now rewrite Hc, Hl, app_assoc|]. split.
    + apply Forall_app. split.
      * destruct (TTLCache.contains (clock w) tid (cache w)); constructor;
          [|constructor]. exists tid. split; [now left|reflexivity].
      * eapply Forall_impl; [|exact Hall].
        intros c (t & Hin & ->). exists t. split; [now right|reflexivity].
    + rewrite length_app. simpl.
      destruct (TTLCache.contains (clock w) tid (cache w)); simpl; lia.
Qed.

Lemma referenced_from_child (task_run_id tid : string) (data : list RawRun) :
  In tid (referenced_task_ids task_run_id data) ->
  exists st, In st data /\ is_root task_run_id st = false /\
             rr_taskId st = Some tid /\ tid <> "".
Proof.
  unfold referenced_task_ids. intros H. apply in_flat_map in H.
  destruct H as (st & Hst & Hin). exists st. split; [exact Hst|].
  destruct (rr_taskId st) as [t|]; [|contradiction].
  destruct (is_root task_run_id st); simpl in Hin; [contradiction|].
  destruct (PyStr.truthy t) eqn:Et; simpl in Hin; [|contradiction].
  destruct Hin as [->|[]]. repeat split. now destruct tid.
Qed.

Lemma referenced_length (task_run_id : string) (data : list RawRun) :
  List.length (referenced_task_ids task_run_id data) <= List.length data.
Proof.
  unfold referenced_task_ids. induction data as [|st data IH]; simpl; [lia|].
  rewrite length_app.
  destruct (rr_taskId st) as [t|]; simpl; [|lia].
  destruct (negb (is_root task_run_id st) && PyStr.truthy t); simpl; lia.
Qed.

(** X8: on a successful listing [fetch_spawned_tasks] calls the platform
    once for the list (with limit 100 and the API key as bearer) and
    then only for task definitions, each one the non-empty [taskId] of a
    listed child that is not the root, under the same bearer, and no
    more often than there are listed children. *)
Theorem fetch_spawned_tasks_calls (P : Platform) (task_run_id key : string)
        (w : World) (st : N) (data : list RawRun) :
  set_iter_ok P ->
  api_key_env w = Some key -> PyStr.truthy key = true ->
  task_runs_reply P task_run_id (clock w) = Response st (Some data) ->
  is_2xx st = true ->
  exists lookups,
    calls (snd (fetch_spawned_tasks P task_run_id w))
    = (calls w ++ HttpGetTaskRuns task_run_id 100 key :: lookups)%list /\
    Forall (lookup_for_child task_run_id key data) lookups /\
    List.length lookups <= List.length data.
Proof.
  intros Hset Hk Ht Hr Hst.
  destruct (fetch_spawned_tasks_listed P task_run_id key w st data Hk Ht Hr Hst)
    as (w1 & w2 & Hp & -> & Hc & _).
  destruct (prefetch_calls P key
              (set_iter P (referenced_task_ids task_run_id data))
              (await_call P (HttpGetTaskRuns task_run_id 100 key) w))
    as (lookups & Hcalls & Hall & Hlen).
  rewrite Hp in Hcalls. simpl in Hcalls.
  exists lookups. simpl. rewrite Hc, Hcalls, <- app_assoc.
  split; [reflexivity|]. split.
  - eapply Forall_impl; [|exact Hall].
    intros c (tid & Hin & ->).
    apply (proj1 (proj2 (Hset (referenced_task_ids task_run_id data)) tid))
      in Hin.
    destruct (referenced_from_child _ _ _ Hin) as (raw & H1 & H2 & H3 & H4).
    now exists raw, tid.
  - pose proof (referenced_length task_run_id data) as Hrl.
    assert (List.length (set_iter P (referenced_task_ids task_run_id data))
            <= List.length (referenced_task_ids task_run_id data)).
    { apply NoDup_incl_length; [apply Hset|].
      intros x Hx.
      exact (proj1 (proj2 (Hset (referenced_task_ids task_run_id data)) x) Hx). }
    lia.
Qed.

Lemma fetch_spawned_tasks_calls_witness :
  let data := [demo_child "trn-1" "tsk-a";
               mkRawRun (Some "trn-root") (Some "running") (Some "tsk-root")
                        None None None;
               demo_child "trn-2" "tsk-a";
               mkRawRun (Some "trn-3") (Some "pending") None None None None] in
  let P := demo_platform (Response 200 (Some data)) (Response 404 None) in
  calls (snd (fetch_spawned_tasks P "trn-root" demo_world))
  = [HttpGetTaskRuns "trn-root" 100 "rnd_key"; HttpGetTask "tsk-a" "rnd_key"].
Proof.
  intros data P.
  destruct (fetch_spawned_tasks_calls P "trn-root" "rnd_key" demo_world 200 data
              (dedup_first_ok _ _) eq_refl eq_refl eq_refl eq_refl)
    as (lookups & Hcalls & _).
  reflexivity.
Defined.

Lemma fetch_spawned_tasks_calls_any (P : Platform) (task_run_id : string)
      (w : World) :
  exists extra,
    calls (snd (fetch_spawned_tasks P task_run_id w)) = (calls w ++ extra)%list /\
    (extra = [] \/
     exists key lookups,
       api_key_env w = Some key /\
       extra = HttpGetTaskRuns task_run_id 100 key :: lookups /\
       Forall (fun c => is_name_lookup c = true) lookups).
Proof.
  destruct (api_key_env w) as [key|] eqn:Hk;
    [|exists []; rewrite fetch_spawned_tasks_no_key by (now left);
      simpl; rewrite app_nil_r; auto].
  destruct (PyStr.truthy key) eqn:Ht;
    [|destruct key; [|discriminate]; exists [];
      rewrite fetch_spawned_tasks_no_key by (now right);
      simpl; rewrite app_nil_r; auto].
  destruct (fetch_fails_dec (task_runs_reply P task_run_id (clock w)))
    as [Hf|(st & data & Hr & Hst)].
  - rewrite (fetch_spawned_tasks_listing_fails P task_run_id key w Hk Ht Hf).
    exists [HttpGetTaskRuns task_run_id 100 key]. split; [reflexivity|].
    right. exists key, []. auto.
  - destruct (fetch_spawned_tasks_listed P task_run_id key w st data Hk Ht Hr Hst)
      as (w1 & w2 & Hp & -> & Hc & _).
    destruct (prefetch_calls P key
                (set_iter P (referenced_task_ids task_run_id data))
                (await_call P (HttpGetTaskRuns task_run_id 100 key) w))
      as (lookups & Hcalls & Hall & _).
    rewrite Hp in Hcalls. simpl in Hcalls.
    exists (HttpGetTaskRuns task_run_id 100 key :: lookups). simpl.
    rewrite Hc, Hcalls, <- app_assoc. split; [reflexivity|].
    right. exists key, lookups. split; [reflexivity|]. split; [reflexivity|].
    eapply Forall_impl; [|exact Hall]. now intros c (tid & _ & ->).
Qed.

(** X9: [fetch_task_status] always starts with one fetch of the root
    run and never repeats it; what follows is nothing, or one listing
    and then lookups of task definitions only. When the root fetch fails
    nothing follows and the cache is as before. A report, when there is
    one, carries the id, status and retries of the root run whatever
    happened to the children. *)
Theorem fetch_task_status_calls (P : Platform) (task_run_id : string)
        (w : World) :
  exists rest,
    calls (snd (fetch_task_status P task_run_id w))
    = (calls w ++ SdkGetTaskRun task_run_id :: rest)%list /\
    (rest = [] \/
     exists key lookups,
       api_key_env w = Some key /\
       rest = HttpGetTaskRuns task_run_id 100 key :: lookups /\
       Forall (fun c => is_name_lookup c = true) lookups) /\
    (forall e, task_run_reply P task_run_id (clock w) = inl e ->
               rest = [] /\
               cache (snd (fetch_task_status P task_run_id w)) = cache w) /\
    (forall report w',
        fetch_task_status P task_run_id w = (Return report, w') ->
        exists tr,
          task_run_reply P task_run_id (clock w) = inr tr /\
          rp_id report = tr_id tr /\ rp_status report = tr_status tr /\
          rp_retries report = tr_retries tr).
Proof.
  rewrite fetch_task_status_world.
  destruct (task_run_reply P task_run_id (clock w)) as [e|tr] eqn:Er.
  - exists []. split; [reflexivity|]. split; [now left|].
    split; [intros _ _; split; reflexivity|].
    intros report w' H.
    rewrite (fetch_task_status_root_fails P task_run_id w e Er) in H.
    discriminate.
  - destruct (fetch_spawned_tasks_calls_any P task_run_id
                (await_call P (SdkGetTaskRun task_run_id) w))
      as (extra & Hc & Hshape).
    exists extra. split; [rewrite Hc; simpl; now rewrite <- app_assoc|].
    split; [exact Hshape|]. split; [intros e He; discriminate He|].
    intros report w' H.
    destruct (fetch_task_status_inv P task_run_id w w' report H)
      as (tr' & tasks & Hr' & _ & ->).
    exists tr'. split; [congruence|]. simpl. auto.
Qed.

(** X10: an API key that is set to the empty string counts as unset:
    [fetch_spawned_tasks] returns the empty list without a call, and a
    report then has no tasks and the root fetch as its only call. *)
Theorem fetch_spawned_tasks_empty_key (P : Platform) (task_run_id : string)
        (w : World) :
  api_key_env w = Some "" ->
  fetch_spawned_tasks P task_run_id w = (Return [], w) /\
  (forall report w',
      fetch_task_status P task_run_id w = (Return report, w') ->
      rp_tasks report = [] /\
      calls w' = (calls w ++ [SdkGetTaskRun task_run_id])%list).
Proof.
  intros Hk. split.
  - apply fetch_spawned_tasks_no_key. now right.
  - intros report w' H.
    destruct (fetch_task_status_inv P task_run_id w w' report H)
      as (tr & tasks & _ & Hs & ->).
    rewrite fetch_spawned_tasks_no_key in Hs by (now right).
    injection Hs as <- <-. split; reflexivity.
Qed.

Lemma fetch_spawned_tasks_empty_key_witness :
  let P := demo_platform (Response 200 (Some [demo_child "trn-1" "tsk-a"]))
             (Response 200 (Some (mkMetadata (Some "Crawl page") None))) in
  let w := mkWorld TTLCache.empty 0 (Some "") [] in
  fetch_spawned_tasks P "trn-root" w = (Return [], w) /\
  rp_tasks (mkReport "trn-root" "completed" 2 [] (Some "{}")) = [] /\
  calls (snd (fetch_task_status P "trn-root" w)) = [SdkGetTaskRun "trn-root"].
Proof.
  intros P w.
  destruct (fetch_spawned_tasks_empty_key P "trn-root" w eq_refl) as (Hs & Hrep).
  split; [exact Hs|].
  exact (Hrep (mkReport "trn-root" "completed" 2 [] (Some "{}"))
              (snd (fetch_task_status P "trn-root" w)) eq_refl).
Defined.

(** ** Children whose name cannot be resolved *)

Lemma prefetch_turn_degraded (P : Platform) (k key : string) (w : World) :
  TTLCache.contains (clock w) k (cache w) = false ->
  fetch_fails (task_reply P k (clock w)) ->
  prefetch P key [k] w = (Return tt, await_call P (HttpGetTask k key) w).
Proof.
  intros Hmiss Hf. unfold prefetch. simpl. unfold bind at 1 2.
  unfold cache_contains at 1. rewrite Hmiss. simpl.
  unfold bind, ret. now rewrite (get_task_name_degraded P k key w Hmiss Hf).
Qed.

(** An identifier that is not live stays so through the pre-fetch when
    the platform never answers for it. *)
Lemma prefetch_keeps_dead (P : Platform) (key k : string) (ids : list string) :
  (In k ids -> forall t, fetch_fails (task_reply P k t)) ->
  forall w w',
    prefetch P key ids w = (Return tt, w') ->
    dead k (clock w) (cache w) -> dead k (clock w') (cache w').
Proof.
  induction ids as [|tid ids IH]; intros Hfail w w' Hp Hd.
  - unfold prefetch in Hp. simpl in Hp. unfold ret in Hp.
    now injection Hp as <-.
  - rewrite prefetch_cons in Hp.
    destruct (prefetch_turn P tid key w) as (w1 & Ht & _ & Hc & _ & _ & Hd1).
    rewrite Ht in Hp.
    apply (IH (fun Hin => Hfail (or_intror Hin)) w1 w' Hp).
    destruct (String.eqb_spec k tid) as [->|Hne]; [|now apply Hd1].
    rewrite (prefetch_turn_degraded P tid key w) in Ht.
    + injection Ht as <-. simpl. eapply dead_later; [|exact Hd]. lia.
    + now apply dead_contains.
    + apply Hfail. now left.
Qed.

(** X11: in a successful listing, a child that is not the root and whose
    task definition cannot be named still gets its entry: with a
    [taskId] that the cache does not hold and that the platform never
    answers for, the entry shows the raw [taskId]; with no [taskId] (or
    an empty one), it shows the empty string, and no lookup is made for
    it. *)
Theorem unresolved_child_shows_raw_id (P : Platform) (task_run_id key : string)
        (w : World) (st : N) (data : list RawRun) (child : RawRun) :
  set_iter_ok P ->
  api_key_env w = Some key -> PyStr.truthy key = true ->
  task_runs_reply P task_run_id (clock w) = Response st (Some data) ->
  is_2xx st = true ->
  TTLCache.wf (cache w) ->
  In child data -> is_root task_run_id child = false ->
  let tid := match rr_taskId child with Some t => t | None => "" end in
  TTLCache.contains (clock w) tid (cache w) = false ->
  (tid <> "" -> forall t, fetch_fails (task_reply P tid t)) ->
  In (summary_of child tid)
     (returned_tasks (fetch_spawned_tasks P task_run_id w)) /\
  (tid = "" ->
   lookups_of tid (calls (snd (fetch_spawned_tasks P task_run_id w)))
   = lookups_of tid (calls w)).
Proof.
  intros Hset Hk Ht Hr Hst Hwf Hin Hroot tid Hmiss Hfail.
  destruct (fetch_spawned_tasks_listed P task_run_id key w st data Hk Ht Hr Hst)
    as (w1 & w2 & Hp & Hs & Hc & _).
  assert (Hempty : tid = "" ->
                   ~ In tid (set_iter P (referenced_task_ids task_run_id data))).
  { intros E Hx.
    apply (proj1 (proj2 (Hset (referenced_task_ids task_run_id data)) tid))
      in Hx.
    destruct (referenced_from_child _ _ _ Hx) as (_ & _ & _ & _ & Hne).
    contradiction. }
  assert (Hdead : dead tid (clock w1) (cache w1)).
  { apply (prefetch_keeps_dead P key tid
             (set_iter P (referenced_task_ids task_run_id data))) with
      (w := await_call P (HttpGetTaskRuns task_run_id 100 key) w).
    - intros Hx. apply Hfail. intros E. now apply (Hempty E).
    - exact Hp.
    - simpl. apply (dead_later tid (clock w)); [lia|].
      now apply contains_dead. }
  split.
  - rewrite Hs. unfold returned_tasks. simpl. unfold spec_children.
    apply in_map_iff. exists child. split.
    + f_equal. unfold shown_name. fold tid.
      now rewrite (CacheFacts.contains_false_peek _ _ _
                     (dead_contains _ _ _ Hdead)).
    + apply filter_In. split; [exact Hin|]. now rewrite Hroot.
  - intros E. rewrite Hs. simpl. rewrite Hc.
    destruct (prefetch_frame P key
                (set_iter P (referenced_task_ids task_run_id data))
                (await_call P (HttpGetTaskRuns task_run_id 100 key) w))
      as (w1' & Hp' & _ & _ & _ & Hout & _).
    rewrite Hp in Hp'. injection Hp' as <-.
    rewrite (Hout tid (Hempty E)). simpl. apply lookups_of_listing.
Qed.

Lemma unresolved_child_shows_raw_id_witness :
  let orphan := mkRawRun (Some "trn-2") (Some "pending") None None None None in
  let data := [demo_child "trn-1" "tsk-a"; orphan] in
  let P := demo_platform (Response 200 (Some data)) (Response 503 None) in
  In (summary_of (demo_child "trn-1" "tsk-a") "tsk-a")
     (returned_tasks (fetch_spawned_tasks P "trn-root" demo_world)) /\
  In (summary_of orphan "")
     (returned_tasks (fetch_spawned_tasks P "trn-root" demo_world)).
Proof.
  intros orphan data P. split.
  - apply (unresolved_child_shows_raw_id P "trn-root" "rnd_key" demo_world 200
             data (demo_child "trn-1" "tsk-a") (dedup_first_ok _ _)
             eq_refl eq_refl eq_refl eq_refl CacheFacts.empty_wf
             (or_introl eq_refl) eq_refl eq_refl).
    intros _ t. left. reflexivity.
  - apply (unresolved_child_shows_raw_id P "trn-root" "rnd_key" demo_world 200
             data orphan (dedup_first_ok _ _)
             eq_refl eq_refl eq_refl eq_refl CacheFacts.empty_wf
             (or_intror (or_introl eq_refl)) eq_refl eq_refl).
    intros Hne. now contradiction Hne.
Defined.

(** * Lookups per identifier *)

(** ** A stored name through the rest of the pre-fetch *)









(** ** C4: remote lookups per identifier *)




(** * The bounds of the cache *)

(** ** Order of use along a trace *)

Lemma ordered_by_filter (u : string -> option nat) (f : TTLCache.entry -> bool)
      (c : TTLCache.t) :
  ordered_by u c -> ordered_by u (filter f c).
Proof.
  induction c as [|a c IH]; simpl; [auto|].
  intros [Ha Hc]. destruct (f a); simpl; [|now apply IH].
  split; [|now apply IH].
  intros b Hb. apply Ha. now apply filter_In in Hb.
Qed.

Lemma ordered_by_skipn (u : string -> option nat) (n : nat) (c : TTLCache.t) :
  ordered_by u c -> ordered_by u (skipn n c).
Proof.
  revert c. induction n as [|n IH]; intros c H; [exact H|].
  destruct c as [|a c]; [exact H|]. simpl. apply IH. exact (proj2 H).
Qed.

Lemma ordered_by_ext (u u' : string -> option nat) (c : TTLCache.t) :
  (forall e, In e c -> u' (TTLCache.e_key e) = u (TTLCache.e_key e)) ->
  ordered_by u c -> ordered_by u' c.
Proof.
  induction c as [|a c IH]; simpl; [auto|].
  intros Hext [Ha Hc]. split.
  - intros b Hb. unfold use_lt.
    rewrite (Hext a (or_introl eq_refl)), (Hext b (or_intror Hb)).
    now apply Ha.
  - apply IH; [|exact Hc]. intros e He. apply Hext. now right.
Qed.

Lemma ordered_by_snoc (u : string -> option nat) (c : TTLCache.t)
      (e : TTLCache.entry) :
  ordered_by u c ->
  (forall a, In a c -> use_lt u (TTLCache.e_key a) (TTLCache.e_key e)) ->
  ordered_by u (c ++ [e])%list.
Proof.
  induction c as [|a c IH]; simpl.
  - intros _ _. split; [intros b []|exact I].
  - intros [Ha Hc] He. split.
    + intros b Hb. apply in_app_or in Hb. destruct Hb as [Hb|[<-|[]]].
      * now apply Ha.
      * apply He. now left.
    + apply IH; [exact Hc|]. intros x Hx. apply He. now right.
Qed.

Lemma remove_in (k : string) (c : TTLCache.t) (e : TTLCache.entry) :
  In e (TTLCache.remove k c) -> In e c /\ TTLCache.e_key e <> k.
Proof.
  unfold TTLCache.remove. intros H. apply filter_In in H.
  destruct H as [Hin Hk]. split; [exact Hin|].
  intros E. apply CacheFacts.has_key_true in E. now rewrite E in Hk.
Qed.

(** Moving or adding the entry of the key just used keeps the order. *)
Lemma stamped_touch (u u' : string -> option nat) (i : nat) (k : string)
      (c0 : TTLCache.t) (e : TTLCache.entry) :
  (forall a, In a c0 ->
             TTLCache.e_key a <> k /\
             exists j, u (TTLCache.e_key a) = Some j /\ j < i) ->
  ordered_by u c0 ->
  TTLCache.e_key e = k ->
  (forall k', u' k' = if String.eqb k k' then Some i else u k') ->
  stamped_ok ((c0 ++ [e])%list, u', S i).
Proof.
  intros Hc0 Hord Hk Hu'.
  assert (Hold : forall a, In a c0 ->
                           u' (TTLCache.e_key a) = u (TTLCache.e_key a)).
  { intros a Ha. rewrite Hu'. destruct (Hc0 a Ha) as [Hne _].
    destruct (String.eqb_spec k (TTLCache.e_key a)); congruence. }
  assert (Hnew : u' (TTLCache.e_key e) = Some i).
  { rewrite Hu', Hk. now rewrite String.eqb_refl. }
  split.
  - intros a Ha. apply in_app_or in Ha. destruct Ha as [Ha|[<-|[]]].
    + rewrite (Hold a Ha). destruct (Hc0 a Ha) as [_ (j & Hj & Hlt)].
      exists j. split; [exact Hj|lia].
    + exists i. split; [exact Hnew|lia].
  - apply ordered_by_snoc.
    + apply (ordered_by_ext u); [exact Hold|exact Hord].
    + intros a Ha. unfold use_lt. rewrite (Hold a Ha), Hnew.
      destruct (Hc0 a Ha) as [_ (j & -> & Hlt)]. exact Hlt.
Qed.

Lemma stamp_step_ok (s : stamped) (o : TTLCache.op) :
  stamped_ok s -> stamped_ok (stamp_step s o).
Proof.
  destruct s as [[c u] i]. intros [Hused Hord].
  assert (Hsame : forall u', (forall k', u' k' = u k') ->
                             stamped_ok (c, u', S i)).
  { intros u' Hu'. split.
    - intros e He. destruct (Hused e He) as (j & Hj & Hlt).
      exists j. rewrite Hu'. split; [exact Hj|lia].
    - apply (ordered_by_ext u); [intros e _; apply Hu'|exact Hord]. }
  destruct o as [now k|now k|now k v]; unfold stamp_step, is_use;
    cbn [TTLCache.step].
  - apply Hsame. reflexivity.
  - destruct (TTLCache.getitem now k c) as [[v c']|] eqn:Eg.
    + unfold TTLCache.getitem in Eg.
      destruct (TTLCache.lookup k c) as [e0|] eqn:El; [|discriminate].
      destruct (TTLCache.live now e0); [|discriminate].
      injection Eg as _ <-.
      destruct (CacheFacts.lookup_some _ _ _ El) as [_ Hk0].
      apply (stamped_touch u _ i k).
      * intros a Ha. apply remove_in in Ha. destruct Ha as [Ha Hne].
        split; [exact Hne|now apply Hused].
      * now apply ordered_by_filter.
      * exact Hk0.
      * intros k'. now rewrite andb_true_r.
    + apply Hsame. intros k'. now rewrite andb_false_r.
  - unfold TTLCache.setitem.
    apply (stamped_touch u _ i k).
    + intros a Ha. apply remove_in in Ha. destruct Ha as [Ha Hne].
      split; [exact Hne|]. apply Hused.
      assert (Hexp : In a (TTLCache.expire now c)).
      { destruct (TTLCache.lookup k (TTLCache.expire now c));
          [exact Ha|now apply CacheFacts.evict_incl]. }
      unfold TTLCache.expire in Hexp. now apply filter_In in Hexp.
    + apply ordered_by_filter.
      destruct (TTLCache.lookup k (TTLCache.expire now c)).
      * now apply ordered_by_filter.
      * unfold TTLCache.evict. apply ordered_by_skipn.
        now apply ordered_by_filter.
    + reflexivity.
    + reflexivity.
Qed.

Lemma run_stamped_snoc (ops : list TTLCache.op) (o : TTLCache.op) :
  run_stamped (ops ++ [o]) = stamp_step (run_stamped ops) o.
Proof. unfold run_stamped. now rewrite fold_left_app. Qed.

Lemma run_stamped_cache (ops : list TTLCache.op) :
  fst (fst (run_stamped ops)) = TTLCache.run ops TTLCache.empty.
Proof.
  induction ops as [|o ops IH] using rev_ind; [reflexivity|].
  rewrite run_stamped_snoc. unfold TTLCache.run. rewrite fold_left_app.
  simpl. fold (TTLCache.run ops TTLCache.empty). rewrite <- IH.
  now destruct (run_stamped ops) as [[c u] i].
Qed.

Lemma run_stamped_ok (ops : list TTLCache.op) : stamped_ok (run_stamped ops).
Proof.
  induction ops as [|o ops IH] using rev_ind.
  - split; [intros e []|exact I].
  - rewrite run_stamped_snoc. now apply stamp_step_ok.
Qed.

(** The cache a trace builds lists its entries in the order in which
    their keys were last used in the trace. *)
Lemma run_ordered_by_use (ops : list TTLCache.op) :
  ordered_by (last_use ops) (TTLCache.run ops TTLCache.empty).
Proof.
  pose proof (run_stamped_ok ops) as H.
  pose proof (run_stamped_cache ops) as Hc.
  unfold last_use. destruct (run_stamped ops) as [[c u] i].
  simpl in *. subst c. exact (proj2 H).
Qed.

(** ** C7: the bounds of the cache *)

(** C7: after any sequence of reads and stores the cache holds at most
    1000 entries; a store of a new key into a cache with 1000 live
    entries drops exactly one entry, the one whose key was last used
    (stored, or read and found) earliest in the sequence, and keeps the
    others; a read returns only a value stored less than 3600 time
    units before; and once every store of an identifier is that old,
    its next resolution asks the platform again. *)
Theorem name_cache_bounded (ops : list TTLCache.op) :
  let c := TTLCache.run ops TTLCache.empty in
  List.length c <= 1000 /\
  (forall now k v,
      List.length (TTLCache.expire now c) = 1000 ->
      TTLCache.lookup k (TTLCache.expire now c) = None ->
      TTLCache.setitem now k v c
      = (tl (TTLCache.expire now c)
           ++ [TTLCache.mkEntry k v (now + 3600)])%list /\
      exists victim rest,
        TTLCache.expire now c = victim :: rest /\
        TTLCache.lookup (TTLCache.e_key victim) (TTLCache.setitem now k v c)
        = None /\
        (forall e, In e rest ->
                   In e (TTLCache.setitem now k v c) /\
                   used_before ops (TTLCache.e_key victim) (TTLCache.e_key e))) /\
  (forall now k v c',
      TTLCache.getitem now k c = Some (v, c') ->
      exists s, TTLCache.stored_at ops k v s /\ (now < s + 3600)%N) /\
  (forall now k,
      (forall s v, TTLCache.stored_at ops k v s -> (s + 3600 <= now)%N) ->
      TTLCache.contains now k c = false /\
      TTLCache.getitem now k c = None /\
      forall P key env log,
        calls (snd (get_task_name P k key (mkWorld c now env log)))
        = (log ++ [HttpGetTask k key])%list).
Proof.
  intros c.
  assert (Hwf : TTLCache.wf c) by (apply CacheFacts.run_wf, CacheFacts.empty_wf).
  pose proof (CacheFacts.from_stores_run ops) as Hfrom. fold c in Hfrom.
  assert (Hold : forall now k,
             (forall s v, TTLCache.stored_at ops k v s -> (s + 3600 <= now)%N) ->
             TTLCache.contains now k c = false).
  { intros now k H. unfold TTLCache.contains.
    destruct (TTLCache.lookup k c) as [e|] eqn:E; [|reflexivity].
    destruct (CacheFacts.lookup_some _ _ _ E) as [He Hk].
    destruct (Hfrom e He) as (s & Hs & Hx). rewrite Hk in Hs.
    specialize (H s (TTLCache.e_value e) Hs).
    unfold TTLCache.live. rewrite Hx. apply N.ltb_ge.
    unfold TTLCache.ttl. lia. }
  split; [exact (proj2 Hwf)|]. split; [|split].
  - intros now k v Hlen Hk.
    pose proof (CacheFacts.setitem_at_bound now k v c Hlen Hk) as Hset.
    split; [exact Hset|].
    assert (Hord : ordered_by (last_use ops) (TTLCache.expire now c))
      by (apply ordered_by_filter, run_ordered_by_use).
    assert (Hnd : NoDup (TTLCache.keys (TTLCache.expire now c)))
      by (apply CacheFacts.keys_filter_NoDup, Hwf).
    rewrite Hset.
    destruct (TTLCache.expire now c) as [|victim rest] eqn:E;
      [discriminate Hlen|].
    exists victim, rest. split; [reflexivity|]. simpl tl. split.
    + apply CacheFacts.lookup_none. unfold TTLCache.keys.
      rewrite map_app. simpl. intros Hin. apply in_app_or in Hin.
      destruct Hin as [Hin|[Hin|[]]].
      * unfold TTLCache.keys in Hnd. simpl in Hnd.
        inversion Hnd as [|? ? Hv _]. contradiction.
      * apply CacheFacts.lookup_none in Hk. apply Hk.
        unfold TTLCache.keys. simpl. left. congruence.
    + intros e He. split; [apply in_or_app; now left|].
      exact (proj1 Hord e He).
  - intros now k v c' Hg. unfold TTLCache.getitem in Hg.
    destruct (TTLCache.lookup k c) as [e|] eqn:E; [|discriminate].
    destruct (TTLCache.live now e) eqn:El; [|discriminate].
    injection Hg as <- _.
    destruct (CacheFacts.lookup_some _ _ _ E) as [He Hk].
    destruct (Hfrom e He) as (s & Hs & Hx). rewrite Hk in Hs.
    exists s. split; [exact Hs|].
    unfold TTLCache.live in El. apply N.ltb_lt in El.
    rewrite Hx in El. exact El.
  - intros now k H. pose proof (Hold now k H) as Hc.
    split; [exact Hc|]. split.
    + pose proof (CacheFacts.getitem_peek now k c) as Hp.
      rewrite (CacheFacts.contains_false_peek now k c Hc) in Hp.
      now destruct (TTLCache.getitem now k c).
    + intros P key env log.
      destruct (get_task_name_frame P k key (mkWorld c now env log))
        as (r & w' & -> & _ & _ & Hcalls & _).
      simpl in *. rewrite Hcalls, Hc. reflexivity.
Qed.

Lemma demo_fill_read_stores (k v : string) (s : N) :
  TTLCache.stored_at demo_fill_read k v s -> s = 0%N.
Proof.
  unfold TTLCache.stored_at, demo_fill_read, demo_fill. intros H.
  apply in_app_or in H. destruct H as [H|[H|[]]]; [|discriminate H].
  apply in_map_iff in H. destruct H as (n & Hn & _). congruence.
Qed.

Lemma name_cache_bounded_witness :
  List.length (TTLCache.expire 5 demo_read_full) = 1000 /\
  hd_error (TTLCache.keys (TTLCache.expire 5 demo_read_full)) = Some "tsk-1" /\
  last_use demo_fill_read "tsk-0" = Some 1000 /\
  last_use demo_fill_read "tsk-1" = Some 1 /\
  (TTLCache.setitem 5 "tsk-new" "New" demo_read_full
   = (tl (TTLCache.expire 5 demo_read_full)
        ++ [TTLCache.mkEntry "tsk-new" "New" (5 + 3600)])%list /\
   exists victim rest,
     TTLCache.expire 5 demo_read_full = victim :: rest /\
     TTLCache.lookup (TTLCache.e_key victim)
       (TTLCache.setitem 5 "tsk-new" "New" demo_read_full) = None /\
     (forall e, In e rest ->
                In e (TTLCache.setitem 5 "tsk-new" "New" demo_read_full) /\
                used_before demo_fill_read (TTLCache.e_key victim)
                            (TTLCache.e_key e))) /\
  TTLCache.lookup "tsk-0" (TTLCache.setitem 5 "tsk-new" "New" demo_read_full)
  <> None /\
  TTLCache.getitem 3600 "tsk-7" demo_read_full = None /\
  calls (snd (get_task_name demo_expired_platform "tsk-7" "rnd_key"
                (mkWorld demo_read_full 3600 (Some "rnd_key") [])))
  = ([] ++ [HttpGetTask "tsk-7" "rnd_key"])%list.
Proof.
  pose proof (name_cache_bounded demo_fill_read) as H.
  cbv zeta in H.
  destruct H as (_ & Hevict & _ & Hexpired).
  assert (Hlen : List.length (TTLCache.expire 5 demo_read_full) = 1000)
    by (vm_compute; reflexivity).
  split; [exact Hlen|].
  split; [vm_compute; reflexivity|].
  split; [vm_compute; reflexivity|].
  split; [vm_compute; reflexivity|].
  split.
  - refine (Hevict 5%N "tsk-new" "New" Hlen _). vm_compute. reflexivity.
  - split; [vm_compute; discriminate|].
    assert (Hold : forall s v,
               TTLCache.stored_at demo_fill_read "tsk-7" v s ->
               (s + 3600 <= 3600)%N).
    { intros s v Hs. rewrite (demo_fill_read_stores _ _ _ Hs). lia. }
    destruct (Hexpired 3600%N "tsk-7" Hold) as (_ & Hget & Hcalls).
    split; [exact Hget|].
    exact (Hcalls demo_expired_platform "rnd_key" (Some "rnd_key") []).
Defined.
